(** * PooPyLab: the activated-sludge reactor of [unit_procs/bio.py]

    A shallow embedding of class [asm_reactor]: its mutators, the discharge
    cycle, and the two explicit integrators [_euler] and [_runge_kutta_4]
    with the step-size rule they share.

    Numbers.  The Python code is duck-typed: it computes with whatever
    numbers its caller stores in the reactor, binary64 floats in practice,
    exact [fractions.Fraction] values as well.  The embedding is written
    once over an interface [PyNum] of the operations the code uses.  What
    the code does whatever the arithmetic (which calls it makes, in which
    order it combines the numbers, when it raises) is proved for every
    instance of [PyNum].  Two instances run the code: exact rationals [Qc]
    and IEEE binary64 [float], the latter bit for bit.  A statement that
    rests on the laws of an ordered field is a statement about exact
    arithmetic only; it says so, and a run at [float] shows how binary64
    breaks it.

    Effects.  Methods mutate [self], print, and call the kinetics model.
    They are embedded in a state-and-exception monad over a [world] that
    holds the reactor object, the lines printed so far and the log of the
    rate evaluations.  A raised exception keeps the world as it was at the
    point of the raise, as in Python. *)

From Stdlib Require Import String Bool ZArith QArith Qabs Qcanon Qcabs List Lia Lqa.
From Stdlib Require Import Floats.PrimFloat Floats.SpecFloat Floats.FloatAxioms.
From Stdlib Require Import Numbers.Cyclic.Int63.Uint63.
From Stdlib Require Import DecimalString DecimalNat.
Import ListNotations.

Set Implicit Arguments.
Open Scope nat_scope.

(** ** Python values and exceptions *)

Inductive PyError : Type :=
| ValueError
| IndexError
| ZeroDivisionError.

Inductive result (A : Type) : Type :=
| Ok (a : A)
| Raise (e : PyError).

Arguments Ok {A} a.
Arguments Raise {A} e.

Definition rbind {A B : Type} (x : result A) (k : A -> result B) : result B :=
  match x with
  | Ok a => k a
  | Raise e => Raise e
  end.

Declare Scope py_scope.
Delimit Scope py_scope with py.

Notation "x <~ e ;; k" := (rbind e (fun x => k))
  (at level 61, e at next level, right associativity) : py_scope.

(** The arithmetic the reactor code performs on concentrations, rates,
    volumes and fractions. *)
Class PyNum (R : Type) : Type := {
  num_of_Z : Z -> R;            (* an integer literal used as a number *)
  num_add : R -> R -> R;        (* x + y *)
  num_mul : R -> R -> R;        (* x * y *)
  num_div : R -> R -> R;        (* x / y, for y != 0 *)
  num_abs : R -> R;             (* abs(x) *)
  num_lt : R -> R -> bool;      (* x < y *)
  num_le : R -> R -> bool;      (* x <= y *)
  num_eq : R -> R -> bool       (* x == y *)
}.

Notation "x + y" := (num_add x y) : py_scope.
Notation "x * y" := (num_mul x y) : py_scope.

Section PythonPrimitives.
Context {R : Type} `{PyNum R}.
Local Open Scope py_scope.

(** [x / y]: Python raises when the divisor compares equal to zero. *)
Definition py_truediv (x y : R) : result R :=
  if num_eq y (num_of_Z 0) then Raise ZeroDivisionError else Ok (num_div x y).

(** [x != 0] *)
Definition py_nonzero (x : R) : bool := negb (num_eq x (num_of_Z 0)).

(** [min(l)]: the first smallest element; [ValueError] on an empty list. *)
Definition py_min (l : list R) : result R :=
  match l with
  | [] => Raise ValueError
  | x :: xs => Ok (fold_left (fun best y => if num_lt y best then y else best) xs x)
  end.
End PythonPrimitives.

Section PythonLists.
Context {A : Type}.

(** The position [l[i]] denotes, with Python's negative indices. *)
Definition py_index (l : list A) (i : Z) : option nat :=
  let n := Z.of_nat (length l) in
  let j := if (i <? 0)%Z then (i + n)%Z else i in
  if ((0 <=? j)%Z && (j <? n)%Z)%bool then Some (Z.to_nat j) else None.

(** [l[i]] *)
Definition py_getitem (l : list A) (i : Z) : result A :=
  match py_index l i with
  | Some j => match nth_error l j with
              | Some x => Ok x
              | None => Raise IndexError
              end
  | None => Raise IndexError
  end.

Fixpoint replace_nth (l : list A) (j : nat) (v : A) : list A :=
  match l, j with
  | [], _ => []
  | _ :: xs, O => v :: xs
  | x :: xs, S j' => x :: replace_nth xs j' v
  end.

(** [l[i] = v], as the list it leaves behind. *)
Definition py_setitem (l : list A) (i : Z) (v : A) : result (list A) :=
  match py_index l i with
  | Some j => Ok (replace_nth l j v)
  | None => Raise IndexError
  end.

(** [[f(i) for i in range(n)]] for an element expression that may raise. *)
Fixpoint py_listcomp (f : nat -> result A) (idx : list nat) : result (list A) :=
  match idx with
  | [] => Ok []
  | i :: rest =>
      match f i with
      | Ok x => match py_listcomp f rest with
                | Ok xs => Ok (x :: xs)
                | Raise e => Raise e
                end
      | Raise e => Raise e
      end
  end.
End PythonLists.

(** [range(a, b)] *)
Definition py_range (a b : Z) : list Z :=
  map (fun k => (a + Z.of_nat k)%Z) (seq 0 (Z.to_nat (b - a))).

(** [range(len(l))] *)
Definition range_len {A : Type} (l : list A) : list nat := seq 0 (length l).

(** ** The two number instances *)

Definition Qc_ltb (x y : Qc) : bool :=
  match (x ?= y)%Qc with Lt => true | _ => false end.
Definition Qc_leb (x y : Qc) : bool :=
  match (x ?= y)%Qc with Gt => false | _ => true end.
Definition Qc_eqb (x y : Qc) : bool :=
  match (x ?= y)%Qc with Eq => true | _ => false end.

#[global] Instance PyNum_Qc : PyNum Qc := {|
  num_of_Z := fun z => Q2Qc (inject_Z z);
  num_add := Qcplus;
  num_mul := Qcmult;
  num_div := Qcdiv;
  num_abs := Qcabs;
  num_lt := Qc_ltb;
  num_le := Qc_leb;
  num_eq := Qc_eqb
|}.

Definition float_of_Z (z : Z) : float :=
  if (z <? 0)%Z then PrimFloat.opp (PrimFloat.of_uint63 (Uint63.of_Z (- z)))
  else PrimFloat.of_uint63 (Uint63.of_Z z).

#[global] Instance PyNum_float : PyNum float := {|
  num_of_Z := float_of_Z;
  num_add := PrimFloat.add;
  num_mul := PrimFloat.mul;
  num_div := PrimFloat.div;
  num_abs := PrimFloat.abs;
  num_lt := PrimFloat.ltb;
  num_le := PrimFloat.leb;
  num_eq := PrimFloat.eqb
|}.

(** ** The kinetics model and the reactor object *)

(** The sludge object [self._sludge]: its component vector [_comps] and
    whatever else the kinetics model keeps (parameters, temperature,
    dissolved oxygen), of a type [C] the reactor never looks into. *)
Record asm_1 (R C : Type) : Type := {
  _comps : list R;
  _model : C
}.

(** The interface of the kinetics model the reactor calls: the rate
    function [_dCdt(vol, flow, in_comps, mo_comps)] and the condition
    updater [update(Temperature, DO)], both methods of the sludge object. *)
Class KineticsModel (R C : Type) : Type := {
  _dCdt : asm_1 R C -> R -> R -> list R -> list R -> list R;
  update : asm_1 R C -> R -> R -> asm_1 R C
}.

Record asm_reactor (R C : Type) : Type := {
  __name__ : string;
  _type : string;
  _active_vol : R;
  _swd : R;
  _area : R;
  _sludge : asm_1 R C;
  _total_inflow : R;
  _in_comps : list R;
  _mo_comps : list R;
  _so_comps : list R;
  _prev_mo_comps : list R;
  _prev_so_comps : list R;
  _upstream_set_mo_flow : bool;
  _int_step_sol : R;
  _int_step_part : R
}.

(** One evaluation of the rate function, by its four arguments. *)
Record dCdt_call (R : Type) : Type := {
  call_vol : R;
  call_flow : R;
  call_in_comps : list R;
  call_comps : list R
}.

Record world (R C : Type) : Type := {
  self : asm_reactor R C;
  stdout : list string;
  dCdt_log : list (dCdt_call R)
}.

(** Computations over the world: the outcome and the world left behind. *)
Definition M (R C A : Type) : Type := world R C -> result A * world R C.

Section Monad.
Context {R C : Type}.

Definition ret {A : Type} (a : A) : M R C A := fun w => (Ok a, w).

Definition bind {A B : Type} (m : M R C A) (k : A -> M R C B) : M R C B :=
  fun w => match m w with
           | (Ok a, w') => k a w'
           | (Raise e, w') => (Raise e, w')
           end.

Definition lift {A : Type} (x : result A) : M R C A := fun w => (x, w).

Definition get_self : M R C (asm_reactor R C) := fun w => (Ok (self w), w).

Definition modify_self (f : asm_reactor R C -> asm_reactor R C) : M R C unit :=
  fun w => (Ok tt, {| self := f (self w); stdout := stdout w; dCdt_log := dCdt_log w |}).

(** [print(line)] *)
Definition print (line : string) : M R C unit :=
  fun w => (Ok tt, {| self := self w; stdout := stdout w ++ [line];
                      dCdt_log := dCdt_log w |}).
End Monad.

Notation "x <- e ;; k" := (bind e (fun x => k))
  (at level 61, e at next level, right associativity) : py_scope.
Notation "e ;; k" := (bind e (fun _ => k))
  (at level 61, right associativity) : py_scope.

(** ** Class [asm_reactor] *)

Section Reactor.
Context {R C : Type} `{PyNum R} `{KineticsModel R C}.
Local Open Scope py_scope.

(** Assignments to single attributes of [self]. *)
Definition with_active_vol (v : R) (r : asm_reactor R C) : asm_reactor R C :=
  {| __name__ := __name__ r; _type := _type r; _active_vol := v; _swd := _swd r;
     _area := _area r; _sludge := _sludge r; _total_inflow := _total_inflow r;
     _in_comps := _in_comps r; _mo_comps := _mo_comps r; _so_comps := _so_comps r;
     _prev_mo_comps := _prev_mo_comps r; _prev_so_comps := _prev_so_comps r;
     _upstream_set_mo_flow := _upstream_set_mo_flow r;
     _int_step_sol := _int_step_sol r; _int_step_part := _int_step_part r |}.

Definition with_sludge (s : asm_1 R C) (r : asm_reactor R C) : asm_reactor R C :=
  {| __name__ := __name__ r; _type := _type r; _active_vol := _active_vol r;
     _swd := _swd r; _area := _area r; _sludge := s;
     _total_inflow := _total_inflow r;
     _in_comps := _in_comps r; _mo_comps := _mo_comps r; _so_comps := _so_comps r;
     _prev_mo_comps := _prev_mo_comps r; _prev_so_comps := _prev_so_comps r;
     _upstream_set_mo_flow := _upstream_set_mo_flow r;
     _int_step_sol := _int_step_sol r; _int_step_part := _int_step_part r |}.

Definition with_mo_comps (v : list R) (r : asm_reactor R C) : asm_reactor R C :=
  {| __name__ := __name__ r; _type := _type r; _active_vol := _active_vol r;
     _swd := _swd r; _area := _area r; _sludge := _sludge r;
     _total_inflow := _total_inflow r;
     _in_comps := _in_comps r; _mo_comps := v; _so_comps := _so_comps r;
     _prev_mo_comps := _prev_mo_comps r; _prev_so_comps := _prev_so_comps r;
     _upstream_set_mo_flow := _upstream_set_mo_flow r;
     _int_step_sol := _int_step_sol r; _int_step_part := _int_step_part r |}.

Definition with_so_comps (v : list R) (r : asm_reactor R C) : asm_reactor R C :=
  {| __name__ := __name__ r; _type := _type r; _active_vol := _active_vol r;
     _swd := _swd r; _area := _area r; _sludge := _sludge r;
     _total_inflow := _total_inflow r;
     _in_comps := _in_comps r; _mo_comps := _mo_comps r; _so_comps := v;
     _prev_mo_comps := _prev_mo_comps r; _prev_so_comps := _prev_so_comps r;
     _upstream_set_mo_flow := _upstream_set_mo_flow r;
     _int_step_sol := _int_step_sol r; _int_step_part := _int_step_part r |}.

Definition with_prev_mo_comps (v : list R) (r : asm_reactor R C) : asm_reactor R C :=
  {| __name__ := __name__ r; _type := _type r; _active_vol := _active_vol r;
     _swd := _swd r; _area := _area r; _sludge := _sludge r;
     _total_inflow := _total_inflow r;
     _in_comps := _in_comps r; _mo_comps := _mo_comps r; _so_comps := _so_comps r;
     _prev_mo_comps := v; _prev_so_comps := _prev_so_comps r;
     _upstream_set_mo_flow := _upstream_set_mo_flow r;
     _int_step_sol := _int_step_sol r; _int_step_part := _int_step_part r |}.

Definition with_prev_so_comps (v : list R) (r : asm_reactor R C) : asm_reactor R C :=
  {| __name__ := __name__ r; _type := _type r; _active_vol := _active_vol r;
     _swd := _swd r; _area := _area r; _sludge := _sludge r;
     _total_inflow := _total_inflow r;
     _in_comps := _in_comps r; _mo_comps := _mo_comps r; _so_comps := _so_comps r;
     _prev_mo_comps := _prev_mo_comps r; _prev_so_comps := v;
     _upstream_set_mo_flow := _upstream_set_mo_flow r;
     _int_step_sol := _int_step_sol r; _int_step_part := _int_step_part r |}.

(** [self._sludge._comps = v] *)
Definition with_comps (v : list R) (r : asm_reactor R C) : asm_reactor R C :=
  with_sludge {| _comps := v; _model := _model (_sludge r) |} r.

(** [self._sludge._dCdt(self._active_vol, self._total_inflow,
    self._in_comps, comps)]: the rate vector, with the evaluation logged. *)
Definition call_dCdt (comps : list R) : M R C (list R) :=
  fun w =>
    let r := self w in
    (Ok (_dCdt (_sludge r) (_active_vol r) (_total_inflow r) (_in_comps r) comps),
     {| self := r; stdout := stdout w;
        dCdt_log := dCdt_log w ++
          [{| call_vol := _active_vol r; call_flow := _total_inflow r;
              call_in_comps := _in_comps r; call_comps := comps |}] |}).

(** *** Mutators *)

Definition assign_initial_guess (initial_guess : list R) : M R C unit :=
  modify_self (with_comps initial_guess) ;;
  modify_self (with_mo_comps initial_guess) ;;
  ret tt.

Definition set_active_vol (vol : R) : M R C unit :=
  (if num_lt (num_of_Z 0) vol then
     modify_self (with_active_vol vol)
   else
     r <- get_self ;;
     print ("ERROR: " ++ __name__ r ++ " requires an active vol > 0 M3.")) ;;
  ret tt.

Definition get_active_vol : M R C R :=
  r <- get_self ;; ret (_active_vol r).

Definition set_model_condition (Temperature DO : R) : M R C unit :=
  (if (num_le (num_of_Z 4) Temperature && num_le (num_of_Z 0) DO)%bool then
     r <- get_self ;;
     modify_self (with_sludge (update (_sludge r) Temperature DO))
   else
     r <- get_self ;;
     print ("ERROR: " ++ __name__ r ++ " given crazy temperature or DO.")) ;;
  ret tt.
End Reactor.

(** ** Step-size rule and the integrators *)

Section Integration.
Context {R C : Type} `{PyNum R} `{KineticsModel R C}.
Local Open Scope py_scope.

(** The loop both integrators run over one partition of indices:
[[
      for i in <indices>:
          if _del_C_del_t[i] != 0:
              _uppers.append(self._sludge._comps[i] / abs(_del_C_del_t[i]))
]]
    [acc] is the list built so far. *)
Fixpoint uppers_loop (_del_C_del_t comps : list R) (indices : list Z)
         (acc : list R) : result (list R) :=
  match indices with
  | [] => Ok acc
  | i :: rest =>
      d <~ py_getitem _del_C_del_t i ;;
      if py_nonzero d then
        c <~ py_getitem comps i ;;
        q <~ py_truediv c (num_abs d) ;;
        uppers_loop _del_C_del_t comps rest (acc ++ [q])
      else
        uppers_loop _del_C_del_t comps rest acc
  end.

(** [_uppers_sol], from [range(first_index_part)]. *)
Definition uppers_sol (_del_C_del_t comps : list R) (first_index_part : Z)
  : result (list R) :=
  uppers_loop _del_C_del_t comps (py_range 0 first_index_part) [].

(** [_uppers_part], from [range(first_index_part, len(_del_C_del_t))]. *)
Definition uppers_part (_del_C_del_t comps : list R) (first_index_part : Z)
  : result (list R) :=
  uppers_loop _del_C_del_t comps
    (py_range first_index_part (Z.of_nat (length _del_C_del_t))) [].

(** The local variables of an integrator once its step sizes are set. *)
Record steps : Type := {
  _max_step_sol : R;
  _max_step_part : R;
  _step_sol : R;
  _step_part : R
}.

(** Lines 268-290 of [_euler]. *)
Definition euler_steps (_del_C_del_t comps : list R) (first_index_part : Z)
           (f_s f_p : R) : result steps :=
  us <~ uppers_sol _del_C_del_t comps first_index_part ;;
  up <~ uppers_part _del_C_del_t comps first_index_part ;;
  ms <~ py_min us ;;
  mp <~ py_min up ;;
  Ok {| _max_step_sol := ms; _max_step_part := mp;
        _step_sol := f_s * ms; _step_part := f_s * mp |}.

(** Lines 171-193 of [_runge_kutta_4]. *)
Definition rk4_steps (_del_C_del_t comps : list R) (first_index_part : Z)
           (f_s f_p : R) : result steps :=
  us <~ uppers_sol _del_C_del_t comps first_index_part ;;
  up <~ uppers_part _del_C_del_t comps first_index_part ;;
  ms <~ py_min us ;;
  mp <~ py_min up ;;
  Ok {| _max_step_sol := ms; _max_step_part := mp;
        _step_sol := f_s * ms; _step_part := f_p * mp |}.

(** The update loop of [_euler], in place on [self._sludge._comps]:
[[
      for i in range(len(self._mo_comps)):
          self._sludge._comps[i] += _del_C_del_t[i] * _step_sol
]] *)
Fixpoint euler_loop (_del_C_del_t : list R) (step_sol : R) (indices : list nat)
  : M R C unit :=
  match indices with
  | [] => ret tt
  | i :: rest =>
      r <- get_self ;;
      c <- lift (py_getitem (_comps (_sludge r)) (Z.of_nat i)) ;;
      d <- lift (py_getitem _del_C_del_t (Z.of_nat i)) ;;
      comps' <- lift (py_setitem (_comps (_sludge r)) (Z.of_nat i) (c + d * step_sol)) ;;
      modify_self (with_comps comps') ;;
      euler_loop _del_C_del_t step_sol rest
  end.

(** [self._so_comps = self._mo_comps = self._sludge._comps[:]] *)
Definition publish_comps (r : asm_reactor R C) : asm_reactor R C :=
  with_mo_comps (_comps (_sludge r)) (with_so_comps (_comps (_sludge r)) r).

Definition _euler (first_index_part : Z) (f_s f_p : R) : M R C unit :=
  r <- get_self ;;
  _del_C_del_t <- call_dCdt (_mo_comps r) ;;
  st <- lift (euler_steps _del_C_del_t (_comps (_sludge r)) first_index_part f_s f_p) ;;
  euler_loop _del_C_del_t (_step_sol st) (range_len (_mo_comps r)) ;;
  modify_self publish_comps ;;
  ret tt.

(** [[base[i] + h * k[i] for i in range(len(k))]], the stage points
    [_w2], [_w3], [_w4] of the Runge-Kutta scheme. *)
Definition stage_point (base k : list R) (h : R) : result (list R) :=
  py_listcomp
    (fun i => b <~ py_getitem base (Z.of_nat i) ;;
              ki <~ py_getitem k (Z.of_nat i) ;;
              Ok (b + h * ki))
    (range_len k).

(** The comprehension of lines 235-238:
[[
      [self._sludge._comps[i]
          + (k1[i] + 2 * k2[i] + 2 * k3[i] + k4[i]) / 6 * _step_sol
          for i in range(len(self._sludge._comps))]
]] *)
Definition rk4_combine (comps k1 k2 k3 k4 : list R) (step_sol : R)
  : result (list R) :=
  py_listcomp
    (fun i => c <~ py_getitem comps (Z.of_nat i) ;;
              a1 <~ py_getitem k1 (Z.of_nat i) ;;
              a2 <~ py_getitem k2 (Z.of_nat i) ;;
              a3 <~ py_getitem k3 (Z.of_nat i) ;;
              a4 <~ py_getitem k4 (Z.of_nat i) ;;
              Ok (c + num_div (a1 + num_of_Z 2 * a2 + num_of_Z 2 * a3 + a4)
                              (num_of_Z 6) * step_sol))
    (range_len comps).

Definition _runge_kutta_4 (first_index_part : Z) (f_s f_p : R) : M R C unit :=
  r <- get_self ;;
  _del_C_del_t <- call_dCdt (_mo_comps r) ;;
  st <- lift (rk4_steps _del_C_del_t (_comps (_sludge r)) first_index_part f_s f_p) ;;
  let sz_2 := num_div (_step_sol st) (num_of_Z 2) in
  let k1 := _del_C_del_t in
  _w2 <- lift (stage_point (_mo_comps r) k1 sz_2) ;;
  k2 <- call_dCdt _w2 ;;
  _w3 <- lift (stage_point (_mo_comps r) k2 sz_2) ;;
  k3 <- call_dCdt _w3 ;;
  _w4 <- lift (stage_point (_mo_comps r) k3 (_step_sol st)) ;;
  k4 <- call_dCdt _w4 ;;
  new_comps <- lift (rk4_combine (_comps (_sludge r)) k1 k2 k3 k4 (_step_sol st)) ;;
  modify_self (with_comps new_comps) ;;
  modify_self publish_comps ;;
  ret tt.

Definition integrate (first_index_particulate : Z) (method_name : string)
           (f_s f_p : R) : M R C unit :=
  (if String.eqb method_name "Euler" then
     _euler first_index_particulate f_s f_p
   else
     _runge_kutta_4 first_index_particulate f_s f_p) ;;
  ret tt.

(** The two methods [discharge] inherits from [pipe] and calls: flow
    splitting before the step and the hand-over to the downstream unit
    after it.  Their code is not part of this class. *)
Variable _branch_flow_helper : M R C unit.
Variable _discharge_main_outlet : M R C unit.

Definition discharge : M R C unit :=
  _branch_flow_helper ;;
  modify_self (fun r => with_prev_mo_comps (_mo_comps r) r) ;;
  modify_self (fun r => with_prev_so_comps (_mo_comps r) r) ;;
  integrate 7 "Euler" (num_div (num_of_Z 5) (num_of_Z 100)) (num_of_Z 2) ;;
  modify_self (fun r => with_so_comps (_mo_comps r) r) ;;
  _discharge_main_outlet ;;
  ret tt.
End Integration.

(** ** Vectors and the vocabulary of the statements *)

(** Component-wise combination of two vectors, to the shorter length. *)
Fixpoint zip_with {A B D : Type} (f : A -> B -> D) (a : list A) (b : list B) : list D :=
  match a, b with
  | x :: a', y :: b' => f x y :: zip_with f a' b'
  | _, _ => []
  end.

Section Vocabulary.
Context {R C : Type} `{PyNum R} `{KineticsModel R C}.
Local Open Scope py_scope.

(** The world after [self._sludge._comps] has been replaced by [v]. *)
Definition set_comps (v : list R) (w : world R C) : world R C :=
  {| self := with_comps v (self w); stdout := stdout w; dCdt_log := dCdt_log w |}.

(** The rate vector a reactor obtains from its model at [comps]. *)
Definition rate_of (r : asm_reactor R C) (comps : list R) : list R :=
  _dCdt (_sludge r) (_active_vol r) (_total_inflow r) (_in_comps r) comps.

(** The log entry of that evaluation. *)
Definition logged_call (r : asm_reactor R C) (comps : list R) : dCdt_call R :=
  {| call_vol := _active_vol r; call_flow := _total_inflow r;
     call_in_comps := _in_comps r; call_comps := comps |}.

(** [base + h * k], component-wise. *)
Definition axpy (base : list R) (h : R) (k : list R) : list R :=
  zip_with (fun b ki => b + h * ki) base k.

(** The vector [rk4_combine] builds, in the order the code computes it. *)
Definition rk4_next (comps k1 k2 k3 k4 : list R) (step_sol : R) : list R :=
  zip_with
    (fun c s => c + num_div s (num_of_Z 6) * step_sol)
    comps
    (zip_with num_add
       (zip_with num_add
          (zip_with num_add k1 (map (num_mul (num_of_Z 2)) k2))
          (map (num_mul (num_of_Z 2)) k3))
       k4).

(** The two "previous round" snapshots of a world. *)
Definition prev_snapshots (w : world R C) : list R * list R :=
  (_prev_mo_comps (self w), _prev_so_comps (self w)).

(** A computation that never touches the snapshots, whatever its outcome. *)
Definition keeps_snapshots {A : Type} (m : M R C A) : Prop :=
  forall w, prev_snapshots (snd (m w)) = prev_snapshots w.

(** The CSTR invariant: both outlet views equal the mixed liquor. *)
Definition cstr_invariant (r : asm_reactor R C) : Prop :=
  _mo_comps r = _comps (_sludge r) /\ _so_comps r = _comps (_sludge r).
End Vocabulary.

(** Vector sum and scaling over the rationals, for stating the schemes as
    the specification writes them. *)
Definition vadd (a b : list Qc) : list Qc := zip_with Qcplus a b.
Definition vscale (h : Qc) (v : list Qc) : list Qc := map (Qcmult h) v.

(** The candidate bounds of a partition as the specification defines
    them: for each index of the partition with a nonzero rate, the
    concentration over the absolute rate. *)
Definition candidate_bounds (rate comps : list Qc) (partition : list nat) : list Qc :=
  map (fun i => (nth i comps 0 / Qcabs (nth i rate 0))%Qc)
      (filter (fun i => py_nonzero (nth i rate 0%Qc)) partition).

(** ** Concrete models and reactors for running the code *)

(** A kinetics model whose rate function returns the same vector whatever
    it is given, and whose condition update does nothing. *)
Definition constant_rate_model {R : Type} (rate : list R) : KineticsModel R unit :=
  {| _dCdt := fun _ _ _ _ _ => rate; update := fun s _ _ => s |}.

(** Linear decay, [rate[i] = -k_i * current[i]], with the decay constants
    [ks] kept in the model (a missing constant counts as zero). *)
Fixpoint linear_decay_rate (ks comps : list Qc) : list Qc :=
  match comps with
  | [] => []
  | c :: cs => (- hd 0%Qc ks * c)%Qc :: linear_decay_rate (tl ks) cs
  end.

Definition linear_decay_model : KineticsModel Qc (list Qc) :=
  {| _dCdt := fun s _ _ _ comps => linear_decay_rate (_model s) comps;
     update := fun s _ _ => s |}.

(** A reactor as the constructor leaves it (default sizing, vectors of
    zeros of the given length) after [assign_initial_guess(comps)].  The
    constructor of this class does not assign [_so_comps]; it is taken to
    hold zeros like the other vectors. *)
Definition reactor_with {R C : Type} `{PyNum R} (model : C) (comps : list R)
  : asm_reactor R C :=
  let zeros := map (fun _ => num_of_Z 0) comps in
  {| __name__ := "ASMReactor_1"; _type := "ASMReactor";
     _active_vol := num_of_Z 38000;
     _swd := num_div (num_of_Z 35) (num_of_Z 10);
     _area := num_div (num_of_Z 38000) (num_div (num_of_Z 35) (num_of_Z 10));
     _sludge := {| _comps := comps; _model := model |};
     _total_inflow := num_of_Z 0;
     _in_comps := zeros; _mo_comps := comps; _so_comps := zeros;
     _prev_mo_comps := zeros; _prev_so_comps := zeros;
     _upstream_set_mo_flow := true;
     _int_step_sol := num_div (num_of_Z 1) (num_of_Z 10000);
     _int_step_part := num_div (num_of_Z 1) (num_of_Z 10000) |}.

Definition world_of {R C : Type} (r : asm_reactor R C) : world R C :=
  {| self := r; stdout := []; dCdt_log := [] |}.

(** Rational literals. *)
Definition qc (n : Z) (d : positive) : Qc := Q2Qc (n # d).

(** The end-to-end scenario: state [10, 5], rates [-2, -1], first
    particulate index 1, soluble fraction 0.1. *)
Definition scenario_rate : list Qc := [qc (-2) 1; qc (-1) 1].
Definition scenario_state : list Qc := [qc 10 1; qc 5 1].
Definition scenario_rate_float : list float := [(-2)%float; (-1)%float].
Definition scenario_state_float : list float := [10%float; 5%float].
Definition float_tenth : float := PrimFloat.div 1%float 10%float.

Definition scenario_world : world Qc unit :=
  world_of (reactor_with tt scenario_state).

Definition scenario_world_float : world float unit :=
  world_of (reactor_with tt scenario_state_float).

Definition scenario_euler (f_p : Qc) : result unit * world Qc unit :=
  @_euler Qc unit _ (constant_rate_model scenario_rate) 1 (qc 1 10) f_p scenario_world.

Definition scenario_euler_float (f_p : float) : result unit * world float unit :=
  @_euler float unit _ (constant_rate_model scenario_rate_float) 1 float_tenth f_p
          scenario_world_float.

Definition scenario_runge_kutta_4 : result unit * world Qc unit :=
  @_runge_kutta_4 Qc unit _ (constant_rate_model scenario_rate) 1 (qc 1 10) (qc 2 1)
                  scenario_world.

(** The same reactor at steady state: every rate is zero. *)
Definition steady_rate : list Qc := [qc 0 1; qc 0 1].
Definition steady_rate_float : list float := [0%float; 0%float].

Definition steady_euler (f_s f_p : Qc) : result unit * world Qc unit :=
  @_euler Qc unit _ (constant_rate_model steady_rate) 1 f_s f_p scenario_world.

Definition steady_runge_kutta_4 (f_s f_p : Qc) : result unit * world Qc unit :=
  @_runge_kutta_4 Qc unit _ (constant_rate_model steady_rate) 1 f_s f_p scenario_world.

Definition steady_euler_float (f_s f_p : float) : result unit * world float unit :=
  @_euler float unit _ (constant_rate_model steady_rate_float) 1 f_s f_p
          scenario_world_float.

Definition steady_runge_kutta_4_float (f_s f_p : float)
  : result unit * world float unit :=
  @_runge_kutta_4 float unit _ (constant_rate_model steady_rate_float) 1 f_s f_p
                  scenario_world_float.

(** A kinetics model that keeps the operating condition it was last
    given, as the pair (temperature, dissolved oxygen), and has no
    reactions. *)
Definition conditions_model : KineticsModel Qc (Qc * Qc) :=
  {| _dCdt := fun _ _ _ _ comps => map (fun _ => qc 0 1) comps;
     update := fun s Temperature DO =>
                 {| _comps := _comps s; _model := (Temperature, DO) |} |}.

(** The scenario reactor at the default condition, 20 degrees and 2 mg/L. *)
Definition conditions_world : world Qc (Qc * Qc) :=
  world_of (reactor_with (qc 20 1, qc 2 1) scenario_state).




(** A thirteen-component reactor for a full discharge cycle, with the two
    inherited [pipe] methods doing nothing to the reactor. *)
Definition cycle_rate : list Qc := map (fun _ => qc (-1) 1) (seq 0 13).
Definition cycle_state : list Qc := map (fun _ => qc 10 1) (seq 0 13).

Definition cycle_world : world Qc unit := world_of (reactor_with tt cycle_state).

Definition cycle_discharge : result unit * world Qc unit :=
  @discharge Qc unit _ (constant_rate_model cycle_rate) (ret tt) (ret tt) cycle_world.

(** The step sizes of that cycle: boundary 7, soluble fraction 0.05. *)
Definition cycle_steps : @steps Qc :=
  {| _max_step_sol := qc 10 1; _max_step_part := qc 10 1;
     _step_sol := qc 1 2; _step_part := qc 1 2 |}.

(** The same reactor at steady state, and its discharge cycle. *)
Definition steady_cycle_rate : list Qc := map (fun _ => qc 0 1) (seq 0 13).

Definition steady_cycle_discharge : result unit * world Qc unit :=
  @discharge Qc unit _ (constant_rate_model steady_cycle_rate) (ret tt) (ret tt)
             cycle_world.

(** The discharge cycle of the two-component scenario reactor. *)
Definition scenario_discharge : result unit * world Qc unit :=
  @discharge Qc unit _ (constant_rate_model scenario_rate) (ret tt) (ret tt)
             scenario_world.

(** The reactor after that cycle, seeded again with a new guess, and its
    next cycle. *)
Definition reseed_state : list Qc := map (fun _ => qc 20 1) (seq 0 13).

Definition reseeded_world : world Qc unit :=
  snd (@assign_initial_guess Qc unit reseed_state (snd cycle_discharge)).

Definition reseeded_discharge : result unit * world Qc unit :=
  @discharge Qc unit _ (constant_rate_model cycle_rate) (ret tt) (ret tt) reseeded_world.

Ltac qc_eq := apply Qc_is_canon; vm_compute; reflexivity.
Ltac qc_list_eq :=
  vm_compute;
  repeat (apply f_equal2; [ qc_eq | ]);
  reflexivity.

(** ** Vocabulary of the further properties *)

Section FurtherVocabulary.
Context {R C : Type} `{PyNum R}.
Local Open Scope py_scope.

(** What the update loop of [_euler] makes of the sludge components when it
    runs over [range(m)] with step [h]: components are advanced from index
    0 on, for as long as the index is below [m] and inside both [comps]
    and the rate vector [d]; the others are as they were. *)
Fixpoint euler_advance (comps d : list R) (m : nat) (h : R) : list R :=
  match m, comps, d with
  | S m', c :: comps', di :: d' => (c + di * h) :: euler_advance comps' d' m' h
  | _, _, _ => comps
  end.

(** The two snapshot assignments of [discharge]. *)
Definition take_snapshots (r : asm_reactor R C) : asm_reactor R C :=
  with_prev_so_comps (_mo_comps r) (with_prev_mo_comps (_mo_comps r) r).

(** The world with its reactor replaced and one more rate evaluation in the
    log. *)
Definition after_call (r : asm_reactor R C) (comps : list R) (w : world R C)
  : world R C :=
  {| self := r; stdout := stdout w;
     dCdt_log := dCdt_log w ++
       [{| call_vol := _active_vol (self w); call_flow := _total_inflow (self w);
           call_in_comps := _in_comps (self w); call_comps := comps |}] |}.
End FurtherVocabulary.

(** [str(n)] for a non-negative integer. *)
Definition py_str_nat (n : nat) : string :=
  DecimalString.NilEmpty.string_of_uint (Nat.to_uint n).

Section Constructor.
Context {R C : Type} `{PyNum R}.

(** [asm_reactor.__init__].  [class_id] is the class attribute [__id]
    before the call; the value returned beside the outcome is that
    attribute after it.  Taken as parameters, for their code is not part of
    this class: what [pipe.__init__] leaves in the two inherited attributes
    the constructor does not assign, the constructor [ASM_1(Temperature,
    DO)], and [constants._NUM_ASM1_COMPONENTS]. *)
Definition __init__ (class_id : nat)
           (pipe_total_inflow : R) (pipe_so_comps : list R)
           (ASM_1 : R -> R -> asm_1 R C) (_NUM_ASM1_COMPONENTS : nat)
           (ActiveVol swd Temperature DO : R)
  : result (asm_reactor R C) * nat :=
  let class_id' := S class_id in
  match py_truediv ActiveVol swd with
  | Raise e => (Raise e, class_id')
  | Ok area =>
      let zeros := repeat (num_of_Z 0) _NUM_ASM1_COMPONENTS in
      (Ok {| __name__ := "ASMReactor_" ++ py_str_nat class_id';
             _type := "ASMReactor";
             _active_vol := ActiveVol;
             _swd := swd;
             _area := area;
             _sludge := ASM_1 Temperature DO;
             _total_inflow := pipe_total_inflow;
             _in_comps := zeros;
             _mo_comps := zeros;
             _so_comps := pipe_so_comps;
             _prev_mo_comps := zeros;
             _prev_so_comps := zeros;
             _upstream_set_mo_flow := true;
             _int_step_sol := num_div (num_of_Z 1) (num_of_Z 10000);
             _int_step_part := num_div (num_of_Z 1) (num_of_Z 10000) |},
       class_id')
  end.
End Constructor.

(** A three-component reactor whose model returns a rate vector one
    component short. *)
Definition short_rate : list Qc := [qc (-2) 1; qc (-1) 1].
Definition long_state : list Qc := [qc 10 1; qc 5 1; qc 1 1].

Definition short_rate_world : world Qc unit := world_of (reactor_with tt long_state).

(** Its step sizes under [_euler] at soluble fraction 0.1. *)
Definition short_rate_steps : @steps Qc :=
  {| _max_step_sol := qc 5 1; _max_step_part := qc 5 1;
     _step_sol := qc 1 2; _step_part := qc 1 2 |}.

Definition short_rate_euler : result unit * world Qc unit :=
  @_euler Qc unit _ (constant_rate_model short_rate) 1 (qc 1 10) (qc 2 1)
          short_rate_world.

Definition short_rate_runge_kutta_4 : result unit * world Qc unit :=
  @_runge_kutta_4 Qc unit _ (constant_rate_model short_rate) 1 (qc 1 10) (qc 2 1)
                  short_rate_world.

(** ** The step-size rule and the Runge-Kutta scheme in the specification's words *)

Section SpecifiedScheme.
Context {R : Type} `{PyNum R}.
Local Open Scope py_scope.

(** The candidate bounds of a set of indices, for any number type: for
    each index with a nonzero rate, the concentration over the absolute
    rate. *)
Definition bounds_over (rate comps : list R) (partition : list nat) : list R :=
  map (fun i => num_div (nth i comps (num_of_Z 0)) (num_abs (nth i rate (num_of_Z 0))))
      (filter (fun i => py_nonzero (nth i rate (num_of_Z 0))) partition).

(** Those of the soluble components, the indices below the boundary. *)
Definition soluble_bounds (rate comps : list R) (first_index_part : Z) : list R :=
  bounds_over rate comps (seq 0 (Z.to_nat first_index_part)).

(** The next state as the specification writes it, for a rate function,
    a state vector and a step [h]: [k1 = rate(state)],
    [k2 = rate(state + (h/2) k1)], [k3 = rate(state + (h/2) k2)],
    [k4 = rate(state + h k3)] and
    [next = state + (h/6) (k1 + 2 k2 + 2 k3 + k4)]. *)
Definition rk4_as_specified (rate : list R -> list R) (state : list R) (h : R)
  : list R :=
  let plus := zip_with num_add in
  let times := fun c : R => map (num_mul c) in
  let k1 := rate state in
  let k2 := rate (plus state (times (num_div h (num_of_Z 2)) k1)) in
  let k3 := rate (plus state (times (num_div h (num_of_Z 2)) k2)) in
  let k4 := rate (plus state (times h k3)) in
  plus state
       (times (num_div h (num_of_Z 6))
              (plus (plus (plus k1 (times (num_of_Z 2) k2)) (times (num_of_Z 2) k3)) k4)).
End SpecifiedScheme.

(** A reactor whose mixed-outlet vector [2, 2] is not its sludge state
    [1, 1], under linear decay with constants [1, 1], and its
    Runge-Kutta step at boundary 1 and soluble fraction 0.1. *)
Definition offset_outlet_world : world Qc (list Qc) :=
  world_of (with_mo_comps [qc 2 1; qc 2 1]
                          (reactor_with [qc 1 1; qc 1 1] [qc 1 1; qc 1 1])).

Definition offset_outlet_runge_kutta_4 : result unit * world Qc (list Qc) :=
  @_runge_kutta_4 Qc (list Qc) _ linear_decay_model 1 (qc 1 10) (qc 2 1)
                  offset_outlet_world.

(** Its step sizes: the rates are taken at the outlet, [-2, -2], and the
    bounds from the sludge state, [1/2] on either side. *)
Definition offset_outlet_steps : @steps Qc :=
  {| _max_step_sol := qc 1 2; _max_step_part := qc 1 2;
     _step_sol := qc 1 20; _step_part := qc 1 1 |}.

(** A binary64 reactor with state [1, 1] and constant rates [-1, -3], and
    its Runge-Kutta step at boundary 1 and soluble fraction 0.2. *)
Definition float_fifth : float := PrimFloat.div 1%float 5%float.
Definition rounding_rate_float : list float := [(-1)%float; (-3)%float].
Definition rounding_state_float : list float := [1%float; 1%float].

Definition rounding_runge_kutta_4_float : result unit * world float unit :=
  @_runge_kutta_4 float unit _ (constant_rate_model rounding_rate_float)
                  1 float_fifth 2%float (world_of (reactor_with tt rounding_state_float)).

(** Its step sizes: bounds [1] and [1/3], fractions 0.2 and 2. *)
Definition rounding_steps_float : @steps float :=
  {| _max_step_sol := 1%float;
     _max_step_part := PrimFloat.div 1%float 3%float;
     _step_sol := PrimFloat.mul float_fifth 1%float;
     _step_part := PrimFloat.mul 2%float (PrimFloat.div 1%float 3%float) |}.





(** The condition-keeping model and its reactor in binary64. *)
Definition conditions_model_float : KineticsModel float (float * float) :=
  {| _dCdt := fun _ _ _ _ comps => map (fun _ => 0%float) comps;
     update := fun s Temperature DO =>
                 {| _comps := _comps s; _model := (Temperature, DO) |} |}.

Definition conditions_world_float : world float (float * float) :=
  world_of (reactor_with (20%float, 2%float) scenario_state_float).

(** * Properties *)

(** ** Facts about the Python list primitives *)

Section ListFacts.
Context {A : Type}.

Lemma py_index_nat (l : list A) (i : nat) :
  i < length l -> py_index l (Z.of_nat i) = Some i.
Proof.
  intros Hi. unfold py_index.
  destruct (Z.ltb_spec (Z.of_nat i) 0) as [Hneg | _]; [ lia | ].
  destruct (Z.leb_spec 0 (Z.of_nat i)) as [_ | Hneg]; [ | lia ].
  destruct (Z.ltb_spec (Z.of_nat i) (Z.of_nat (length l))) as [_ | Hge]; [ | lia ].
  simpl. now rewrite Nat2Z.id.
Qed.

Lemma py_getitem_nat (l : list A) (i : nat) (d : A) :
  i < length l -> py_getitem l (Z.of_nat i) = Ok (nth i l d).
Proof.
  intros Hi. unfold py_getitem. rewrite (py_index_nat l Hi).
  now rewrite (nth_error_nth' l d Hi).
Qed.

Lemma py_getitem_app (a b : list A) (x : A) :
  py_getitem (a ++ x :: b) (Z.of_nat (length a)) = Ok x.
Proof.
  rewrite (py_getitem_nat (a ++ x :: b) (i := length a) x).
  - now rewrite nth_middle.
  - rewrite length_app. simpl. lia.
Qed.

Lemma replace_nth_app (a b : list A) (x v : A) :
  replace_nth (a ++ x :: b) (length a) v = a ++ v :: b.
Proof. induction a as [ | y a IH ]; simpl; [ reflexivity | now rewrite IH ]. Qed.

Lemma py_setitem_app (a b : list A) (x v : A) :
  py_setitem (a ++ x :: b) (Z.of_nat (length a)) v = Ok (a ++ v :: b).
Proof.
  unfold py_setitem. rewrite py_index_nat.
  - now rewrite replace_nth_app.
  - rewrite length_app. simpl. lia.
Qed.

Lemma py_listcomp_ok (f : nat -> result A) (g : nat -> A) (idx : list nat) :
  (forall i, In i idx -> f i = Ok (g i)) ->
  py_listcomp f idx = Ok (map g idx).
Proof.
  induction idx as [ | i idx IH ]; intros Hf; simpl; [ reflexivity | ].
  rewrite (Hf i (or_introl eq_refl)).
  rewrite IH; [ reflexivity | ].
  intros j Hj. apply Hf. now right.
Qed.

Lemma nth_map_seq (g : nat -> A) (n i : nat) (d : A) :
  i < n -> nth i (map g (seq 0 n)) d = g i.
Proof.
  intros Hi.
  rewrite (nth_indep _ d (g 0)) by (rewrite length_map, length_seq; exact Hi).
  rewrite map_nth, seq_nth by exact Hi. reflexivity.
Qed.
End ListFacts.

Lemma nth_map_in {A B : Type} (f : A -> B) (l : list A) (i : nat) (da : A) (db : B) :
  i < length l -> nth i (map f l) db = f (nth i l da).
Proof.
  intros Hi.
  rewrite (nth_indep _ db (f da)) by (rewrite length_map; exact Hi).
  apply map_nth.
Qed.

Lemma length_zip_with {A B D : Type} (f : A -> B -> D) (a : list A) (b : list B) :
  length a = length b -> length (zip_with f a b) = length a.
Proof.
  revert b. induction a as [ | x a IH ]; intros [ | y b ]; simpl; intros E;
    try discriminate; [ reflexivity | ].
  f_equal. apply IH. now injection E.
Qed.

Lemma nth_zip_with {A B D : Type} (f : A -> B -> D) (a : list A) (b : list B)
      (i : nat) (da : A) (db : B) (dd : D) :
  i < length a -> i < length b ->
  nth i (zip_with f a b) dd = f (nth i a da) (nth i b db).
Proof.
  revert a b. induction i as [ | i IH ]; intros [ | x a ] [ | y b ]; simpl;
    intros Ha Hb; try lia; [ reflexivity | ].
  apply IH; lia.
Qed.

Lemma map_seq_zip_with {A B D : Type} (f : A -> B -> D) (a : list A) (b : list B)
      (da : A) (db : B) :
  length a = length b ->
  map (fun i => f (nth i a da) (nth i b db)) (seq 0 (length b)) = zip_with f a b.
Proof.
  revert b. induction a as [ | x a IH ]; intros [ | y b ]; simpl; intros E;
    try discriminate; [ reflexivity | ].
  f_equal. rewrite <- seq_shift, map_map. apply IH. now injection E.
Qed.

(** ** What a run of each integrator leaves behind *)

Section IntegratorFacts.
Context {R C : Type} `{PyNum R} `{KineticsModel R C}.
Local Open Scope py_scope.

Lemma set_comps_same (w : world R C) (v : list R) :
  _comps (_sludge (self w)) = v -> set_comps v w = w.
Proof.
  destruct w as [ r out log ]. destruct r. destruct _sludge0.
  simpl. intros <-. reflexivity.
Qed.

Lemma euler_loop_run (h : R) :
  forall (todo d2 done d1 : list R) (w : world R C),
    length done = length d1 ->
    length todo = length d2 ->
    _comps (_sludge (self w)) = (done ++ todo)%list ->
    euler_loop (d1 ++ d2) h (seq (length done) (length todo)) w
    = (Ok tt, set_comps (done ++ zip_with (fun c d => c + d * h) todo d2) w).
Proof.
  induction todo as [ | c todo IH ]; intros d2 done d1 w Hlen Htodo Hw.
  - destruct d2; [ | discriminate ]. simpl.
    unfold ret. now rewrite set_comps_same.
  - destruct d2 as [ | dj d2 ]; [ discriminate | ].
    simpl seq. simpl euler_loop.
    unfold bind at 1, get_self at 1. rewrite Hw.
    unfold bind at 1, lift at 1. rewrite py_getitem_app.
    unfold bind at 1, lift at 1. rewrite Hlen, py_getitem_app, <- Hlen.
    unfold bind at 1, lift at 1. rewrite py_setitem_app.
    unfold bind at 1, modify_self at 1.
    replace (S (length done)) with (length (done ++ [c + dj * h]))
      by (rewrite length_app; simpl; lia).
    replace (d1 ++ dj :: d2)%list with ((d1 ++ [dj]) ++ d2)%list
      by (now rewrite <- app_assoc).
    rewrite IH.
    + simpl zip_with. rewrite <- app_assoc. reflexivity.
    + rewrite !length_app. simpl. lia.
    + simpl in Htodo. lia.
    + simpl. now rewrite <- app_assoc.
Qed.

(** A run of [_euler] whose step sizes exist and whose vectors agree in
    length: one rate evaluation, every component advanced by
    [rate[i] * _step_sol], and the result published to both outlets. *)
Lemma _euler_run (w : world R C) (first_index_part : Z) (f_s f_p : R) (st : steps) :
  let r := self w in
  let comps := _comps (_sludge r) in
  let d := rate_of r (_mo_comps r) in
  euler_steps d comps first_index_part f_s f_p = Ok st ->
  length d = length comps ->
  length (_mo_comps r) = length comps ->
  _euler first_index_part f_s f_p w
  = (Ok tt,
     {| self := publish_comps
                  (with_comps (zip_with (fun c di => c + di * _step_sol st) comps d) r);
        stdout := stdout w;
        dCdt_log := dCdt_log w ++ [logged_call r (_mo_comps r)] |}).
Proof.
  intros r comps d Hst Hd Hmo.
  unfold _euler.
  unfold bind at 1, get_self at 1.
  unfold bind at 1, call_dCdt at 1.
  unfold bind at 1, lift at 1. cbn [self].
  fold r. fold (rate_of r (_mo_comps r)). fold d. fold comps. rewrite Hst.
  unfold bind at 1.
  unfold range_len. rewrite Hmo.
  pose proof (@euler_loop_run (_step_sol st) comps d [] []) as Hloop.
  simpl in Hloop. rewrite Hloop; [ | reflexivity | now symmetry | reflexivity ].
  reflexivity.
Qed.

Lemma stage_point_ok (base k : list R) (h : R) :
  length base = length k -> stage_point base k h = Ok (axpy base h k).
Proof.
  intros Hlen. unfold stage_point, range_len, axpy.
  rewrite (py_listcomp_ok _
             (fun i => nth i base (num_of_Z 0) + h * nth i k (num_of_Z 0))).
  - now rewrite (map_seq_zip_with (fun b ki => b + h * ki) base k).
  - intros i Hi. apply in_seq in Hi.
    rewrite (py_getitem_nat base (num_of_Z 0)) by lia.
    rewrite (py_getitem_nat k (num_of_Z 0)) by lia.
    reflexivity.
Qed.

Lemma length_axpy (base k : list R) (h : R) :
  length base = length k -> length (axpy base h k) = length base.
Proof. apply length_zip_with. Qed.

Lemma rk4_combine_ok (comps k1 k2 k3 k4 : list R) (h : R) :
  length k1 = length comps -> length k2 = length comps ->
  length k3 = length comps -> length k4 = length comps ->
  rk4_combine comps k1 k2 k3 k4 h = Ok (rk4_next comps k1 k2 k3 k4 h).
Proof.
  intros H1 H2 H3 H4. unfold rk4_combine, range_len.
  set (z := num_of_Z 0).
  rewrite (py_listcomp_ok _
             (fun i => nth i comps z
                       + num_div (nth i k1 z + num_of_Z 2 * nth i k2 z
                                  + num_of_Z 2 * nth i k3 z + nth i k4 z)
                                 (num_of_Z 6) * h)).
  - f_equal. unfold rk4_next.
    assert (L1 : length (zip_with num_add k1 (map (num_mul (num_of_Z 2)) k2))
                 = length comps)
      by (rewrite length_zip_with; rewrite ?length_map; congruence).
    assert (L2 : length (zip_with num_add
                           (zip_with num_add k1 (map (num_mul (num_of_Z 2)) k2))
                           (map (num_mul (num_of_Z 2)) k3)) = length comps)
      by (rewrite length_zip_with; rewrite ?length_map; congruence).
    assert (L3 : length (zip_with num_add
                           (zip_with num_add
                              (zip_with num_add k1 (map (num_mul (num_of_Z 2)) k2))
                              (map (num_mul (num_of_Z 2)) k3)) k4) = length comps)
      by (rewrite length_zip_with; congruence).
    apply (nth_ext _ _ z z).
    + rewrite length_map, length_seq, length_zip_with; congruence.
    + intros i Hi. rewrite length_map, length_seq in Hi.
      rewrite nth_map_seq by exact Hi.
      rewrite (nth_zip_with _ _ _ z z z) by lia.
      rewrite (nth_zip_with _ _ _ z z z) by lia.
      rewrite (nth_zip_with _ _ _ z z z) by (rewrite ?length_map; lia).
      rewrite (nth_zip_with _ _ _ z z z) by (rewrite ?length_map; lia).
      rewrite (nth_map_in _ k2 z z) by lia.
      rewrite (nth_map_in _ k3 z z) by lia.
      reflexivity.
  - intros i Hi. apply in_seq in Hi.
    rewrite (py_getitem_nat comps z) by lia.
    rewrite (py_getitem_nat k1 z) by lia.
    rewrite (py_getitem_nat k2 z) by lia.
    rewrite (py_getitem_nat k3 z) by lia.
    rewrite (py_getitem_nat k4 z) by lia.
    reflexivity.
Qed.

(** A run of [_runge_kutta_4] whose step sizes exist and whose rate
    vectors have the length of the state: four rate evaluations, at the
    mixed-outlet vector and at the three stage points built from it, and
    the weighted combination added to the sludge components. *)
Lemma _runge_kutta_4_run (w : world R C) (first_index_part : Z) (f_s f_p : R)
      (st : steps) :
  let r := self w in
  let comps := _comps (_sludge r) in
  let mo := _mo_comps r in
  let h := _step_sol st in
  let sz_2 := num_div h (num_of_Z 2) in
  let k1 := rate_of r mo in
  let k2 := rate_of r (axpy mo sz_2 k1) in
  let k3 := rate_of r (axpy mo sz_2 k2) in
  let k4 := rate_of r (axpy mo h k3) in
  rk4_steps k1 comps first_index_part f_s f_p = Ok st ->
  length mo = length comps ->
  length k1 = length comps -> length k2 = length comps ->
  length k3 = length comps -> length k4 = length comps ->
  _runge_kutta_4 first_index_part f_s f_p w
  = (Ok tt,
     {| self := publish_comps (with_comps (rk4_next comps k1 k2 k3 k4 h) r);
        stdout := stdout w;
        dCdt_log := dCdt_log w ++
          [logged_call r mo; logged_call r (axpy mo sz_2 k1);
           logged_call r (axpy mo sz_2 k2); logged_call r (axpy mo h k3)] |}).
Proof.
  intros r comps mo h sz_2 k1 k2 k3 k4 Hst Hmo H1 H2 H3 H4.
  unfold _runge_kutta_4.
  unfold bind at 1, get_self at 1.
  unfold bind at 1, call_dCdt at 1.
  unfold bind at 1, lift at 1. cbn [self].
  fold r. fold mo. fold (rate_of r mo). fold k1. fold comps. rewrite Hst.
  unfold bind at 1, lift at 1. fold h. fold sz_2.
  rewrite stage_point_ok by congruence.
  unfold bind at 1, call_dCdt at 1. cbn [self stdout dCdt_log].
  fold r. fold (rate_of r (axpy mo sz_2 k1)). fold k2.
  unfold bind at 1, lift at 1.
  rewrite stage_point_ok by congruence.
  unfold bind at 1, call_dCdt at 1. cbn [self stdout dCdt_log].
  fold r. fold (rate_of r (axpy mo sz_2 k2)). fold k3.
  unfold bind at 1, lift at 1.
  rewrite stage_point_ok by congruence.
  unfold bind at 1, call_dCdt at 1. cbn [self stdout dCdt_log].
  fold r. fold (rate_of r (axpy mo h k3)). fold k4.
  unfold bind at 1, lift at 1.
  rewrite rk4_combine_ok by assumption.
  unfold bind, modify_self, ret. cbn [self stdout dCdt_log].
  rewrite <- !app_assoc. reflexivity.
Qed.
End IntegratorFacts.

(** ** Sequencing: what survives a bind *)

Section Sequencing.
Context {R C : Type} `{PyNum R} `{KineticsModel R C}.
Local Open Scope py_scope.

Lemma bind_Ok_inv {A B : Type} (m : M R C A) (k : A -> M R C B)
      (w w' : world R C) (b : B) :
  bind m k w = (Ok b, w') ->
  exists a w1, m w = (Ok a, w1) /\ k a w1 = (Ok b, w').
Proof.
  unfold bind. destruct (m w) as [ [ a | e ] w1 ]; intros E.
  - now exists a, w1.
  - discriminate.
Qed.

Lemma bind_ret_tt (m : M R C unit) (w : world R C) :
  bind m (fun _ => ret tt) w = m w.
Proof.
  unfold bind, ret. destruct (m w) as [ [ [] | e ] w1 ]; reflexivity.
Qed.

Lemma keeps_snapshots_bind {A B : Type} (m : M R C A) (k : A -> M R C B) :
  keeps_snapshots m -> (forall a, keeps_snapshots (k a)) ->
  keeps_snapshots (bind m k).
Proof.
  intros Hm Hk w. unfold bind. specialize (Hm w).
  destruct (m w) as [ [ a | e ] w1 ]; simpl in *.
  - now rewrite Hk.
  - exact Hm.
Qed.

Lemma keeps_snapshots_ret {A : Type} (a : A) : keeps_snapshots (ret (R := R) (C := C) a).
Proof. intros w. reflexivity. Qed.

Lemma keeps_snapshots_lift {A : Type} (x : result A) :
  keeps_snapshots (lift (R := R) (C := C) x).
Proof. intros w. reflexivity. Qed.

Lemma keeps_snapshots_get_self : keeps_snapshots (get_self (R := R) (C := C)).
Proof. intros w. reflexivity. Qed.

Lemma keeps_snapshots_call_dCdt (comps : list R) : keeps_snapshots (call_dCdt comps).
Proof. intros w. reflexivity. Qed.

Lemma keeps_snapshots_with_comps (v : list R) :
  keeps_snapshots (modify_self (@with_comps R C v)).
Proof. intros w. reflexivity. Qed.

Lemma keeps_snapshots_publish : keeps_snapshots (modify_self (@publish_comps R C)).
Proof. intros w. reflexivity. Qed.

Lemma keeps_snapshots_so_comps :
  keeps_snapshots (modify_self (fun r : asm_reactor R C => with_so_comps (_mo_comps r) r)).
Proof. intros w. reflexivity. Qed.

Ltac frame_step :=
  first [ apply keeps_snapshots_ret
        | apply keeps_snapshots_lift
        | apply keeps_snapshots_get_self
        | apply keeps_snapshots_call_dCdt
        | apply keeps_snapshots_with_comps
        | apply keeps_snapshots_publish
        | apply keeps_snapshots_so_comps
        | apply keeps_snapshots_bind; [ | intro ] ].

Lemma keeps_snapshots_euler_loop (d : list R) (h : R) (indices : list nat) :
  keeps_snapshots (euler_loop (C := C) d h indices).
Proof.
  induction indices as [ | i rest IH ]; simpl.
  - apply keeps_snapshots_ret.
  - repeat frame_step. exact IH.
Qed.

Lemma keeps_snapshots_euler (first_index_part : Z) (f_s f_p : R) :
  keeps_snapshots (_euler first_index_part f_s f_p).
Proof.
  unfold _euler. repeat frame_step. apply keeps_snapshots_euler_loop.
Qed.

Lemma keeps_snapshots_runge_kutta_4 (first_index_part : Z) (f_s f_p : R) :
  keeps_snapshots (_runge_kutta_4 first_index_part f_s f_p).
Proof.
  unfold _runge_kutta_4. cbv zeta. repeat frame_step.
Qed.

Lemma keeps_snapshots_integrate (first_index_particulate : Z) (method_name : string)
      (f_s f_p : R) :
  keeps_snapshots (integrate first_index_particulate method_name f_s f_p).
Proof.
  unfold integrate. apply keeps_snapshots_bind; [ | intro; apply keeps_snapshots_ret ].
  destruct (String.eqb method_name "Euler").
  - apply keeps_snapshots_euler.
  - apply keeps_snapshots_runge_kutta_4.
Qed.

Lemma publish_establishes_cstr (w w' : world R C) :
  bind (modify_self publish_comps) (fun _ => ret tt) w = (Ok tt, w') ->
  cstr_invariant (self w').
Proof.
  unfold bind, modify_self, ret. intros E. injection E as <-.
  split; reflexivity.
Qed.

Lemma euler_establishes_cstr (first_index_part : Z) (f_s f_p : R) (w w' : world R C) :
  _euler first_index_part f_s f_p w = (Ok tt, w') -> cstr_invariant (self w').
Proof.
  unfold _euler. intros E.
  do 4 (apply bind_Ok_inv in E; destruct E as (? & ? & _ & E)).
  now apply publish_establishes_cstr in E.
Qed.

Lemma runge_kutta_4_establishes_cstr (first_index_part : Z) (f_s f_p : R)
      (w w' : world R C) :
  _runge_kutta_4 first_index_part f_s f_p w = (Ok tt, w') -> cstr_invariant (self w').
Proof.
  unfold _runge_kutta_4. cbv zeta. intros E.
  do 11 (apply bind_Ok_inv in E; destruct E as (? & ? & _ & E)).
  now apply publish_establishes_cstr in E.
Qed.
End Sequencing.

(** ** The end-to-end Euler scenario *)

(** C1.  State [10, 5], rates [-2, -1], first particulate index 1 and
    soluble fraction 0.1: the soluble step bound is 5, the scaled step is
    0.5, and [_euler] returns normally, leaving [9, 4.5] as the sludge
    components and as both outlet vectors.  This holds in exact rational
    arithmetic and, bit for bit, in IEEE binary64 arithmetic, whatever the
    particulate fraction. *)
Theorem euler_end_to_end_scenario :
  (forall f_p : Qc,
      (exists st, euler_steps scenario_rate scenario_state 1 (qc 1 10) f_p = Ok st
                  /\ _max_step_sol st = qc 5 1 /\ _step_sol st = qc 1 2)
      /\ fst (scenario_euler f_p) = Ok tt
      /\ _comps (_sludge (self (snd (scenario_euler f_p)))) = [qc 9 1; qc 9 2]
      /\ _mo_comps (self (snd (scenario_euler f_p))) = [qc 9 1; qc 9 2]
      /\ _so_comps (self (snd (scenario_euler f_p))) = [qc 9 1; qc 9 2])
  /\
  (forall f_p : float,
      (exists st, euler_steps scenario_rate_float scenario_state_float 1 float_tenth f_p
                  = Ok st
                  /\ _max_step_sol st = 5%float /\ _step_sol st = 0.5%float)
      /\ fst (scenario_euler_float f_p) = Ok tt
      /\ _comps (_sludge (self (snd (scenario_euler_float f_p)))) = [9%float; 4.5%float]
      /\ _mo_comps (self (snd (scenario_euler_float f_p))) = [9%float; 4.5%float]
      /\ _so_comps (self (snd (scenario_euler_float f_p))) = [9%float; 4.5%float]).
Proof.
  split; intros f_p.
  - split; [ | split; [ | split; [ | split ] ] ].
    + eexists; split; [ reflexivity | split; qc_eq ].
    + reflexivity.
    + qc_list_eq.
    + qc_list_eq.
    + qc_list_eq.
  - split; [ | split; [ | split; [ | split ] ] ].
    + eexists; split; [ reflexivity | split; reflexivity ].
    + reflexivity.
    + reflexivity.
    + reflexivity.
    + reflexivity.
Qed.

(** ** A reactor at steady state *)

(** C3.  With an all-zero rate vector neither integrator reaches its
    update: [min] is applied to an empty list and raises [ValueError],
    after the one rate evaluation, with the reactor as it was.  No
    fallback step is chosen.  Rational and binary64 arithmetic agree. *)
Theorem zero_rate_raises_ValueError :
  (forall f_s f_p : Qc,
      fst (steady_euler f_s f_p) = Raise ValueError
      /\ self (snd (steady_euler f_s f_p)) = self scenario_world
      /\ fst (steady_runge_kutta_4 f_s f_p) = Raise ValueError
      /\ self (snd (steady_runge_kutta_4 f_s f_p)) = self scenario_world)
  /\
  (forall f_s f_p : float,
      fst (steady_euler_float f_s f_p) = Raise ValueError
      /\ self (snd (steady_euler_float f_s f_p)) = self scenario_world_float
      /\ fst (steady_runge_kutta_4_float f_s f_p) = Raise ValueError
      /\ self (snd (steady_runge_kutta_4_float f_s f_p)) = self scenario_world_float).
Proof.
  split; intros f_s f_p; repeat split; reflexivity.
Qed.

(** ** The particulate step *)

Section ParticulateStep.
Context {R : Type} `{PyNum R}.
Local Open Scope py_scope.

(** In [_runge_kutta_4] the particulate step is the particulate fraction
    times the particulate bound. *)
Lemma rk4_step_part (d comps : list R) (first_index_part : Z) (f_s f_p : R)
      (st : steps) :
  rk4_steps d comps first_index_part f_s f_p = Ok st ->
  _step_sol st = f_s * _max_step_sol st /\ _step_part st = f_p * _max_step_part st.
Proof.
  unfold rk4_steps, rbind.
  destruct (uppers_sol d comps first_index_part); [ | discriminate ].
  destruct (uppers_part d comps first_index_part); [ | discriminate ].
  destruct (py_min a); [ | discriminate ].
  destruct (py_min a0); [ | discriminate ].
  intros E. injection E as <-. split; reflexivity.
Qed.

(** In [_euler] it is the soluble fraction times the particulate bound:
    [f_p] never enters. *)
Lemma euler_step_part (d comps : list R) (first_index_part : Z) (f_s f_p : R)
      (st : steps) :
  euler_steps d comps first_index_part f_s f_p = Ok st ->
  _step_sol st = f_s * _max_step_sol st /\ _step_part st = f_s * _max_step_part st.
Proof.
  unfold euler_steps, rbind.
  destruct (uppers_sol d comps first_index_part); [ | discriminate ].
  destruct (uppers_part d comps first_index_part); [ | discriminate ].
  destruct (py_min a); [ | discriminate ].
  destruct (py_min a0); [ | discriminate ].
  intros E. injection E as <-. split; reflexivity.
Qed.
End ParticulateStep.

(** C4.  On the scenario vectors with the fractions [discharge] passes
    (soluble 0.05, particulate 2.0) the particulate bound is 5 in both
    integrators; [_runge_kutta_4] scales it by the particulate fraction to
    10, while [_euler] scales it by the soluble fraction to 0.25, which is
    not the particulate fraction times the bound. *)
Theorem euler_particulate_step_uses_soluble_fraction :
  exists st_euler st_rk4,
    euler_steps scenario_rate scenario_state 1 (qc 1 20) (qc 2 1) = Ok st_euler
    /\ rk4_steps scenario_rate scenario_state 1 (qc 1 20) (qc 2 1) = Ok st_rk4
    /\ _max_step_part st_euler = qc 5 1
    /\ _max_step_part st_rk4 = qc 5 1
    /\ _step_part st_rk4 = (qc 2 1 * qc 5 1)%Qc
    /\ _step_part st_euler = (qc 1 20 * qc 5 1)%Qc
    /\ _step_part st_euler <> (qc 2 1 * qc 5 1)%Qc.
Proof.
  eexists. eexists.
  split; [ reflexivity | ]. split; [ reflexivity | ].
  split; [ qc_eq | ]. split; [ qc_eq | ]. split; [ qc_eq | ]. split; [ qc_eq | ].
  intros E. apply (f_equal this) in E. vm_compute in E. discriminate E.
Qed.

(** ** Comparisons of rationals *)

Lemma Qc_ltb_lt (x y : Qc) : Qc_ltb x y = true <-> (x < y)%Qc.
Proof.
  unfold Qc_ltb. rewrite Qclt_alt.
  destruct (x ?= y)%Qc; split; intros E; try reflexivity; discriminate.
Qed.

Lemma Qc_leb_le (x y : Qc) : Qc_leb x y = true <-> (x <= y)%Qc.
Proof.
  unfold Qc_leb. rewrite Qcle_alt.
  destruct (x ?= y)%Qc; split; intros E; try reflexivity; try discriminate.
  now contradiction E.
Qed.

Lemma Qc_eqb_eq (x y : Qc) : Qc_eqb x y = true <-> x = y.
Proof.
  unfold Qc_eqb. rewrite Qceq_alt.
  destruct (x ?= y)%Qc; split; intros E; try reflexivity; discriminate.
Qed.

Lemma Qc_ltb_nlt (x y : Qc) : Qc_ltb x y = false <-> ~ (x < y)%Qc.
Proof.
  rewrite <- Qc_ltb_lt. destruct (Qc_ltb x y); split; intros E;
    try reflexivity; try discriminate.
  now contradiction E.
Qed.

(** ** Dispatch and the CSTR invariant *)

(** C9.  [integrate] looks only at whether the method name is the string
    ['Euler']: that name runs [_euler]; every other name, recognised or
    not, runs [_runge_kutta_4], with the same outcome, the same printed
    lines and the same world as a direct call. *)
Theorem integrate_dispatches_on_Euler_only
        {R C : Type} `{PyNum R} `{KineticsModel R C}
        (w : world R C) (first_index_particulate : Z) (f_s f_p : R) :
  integrate first_index_particulate "Euler" f_s f_p w
  = _euler first_index_particulate f_s f_p w
  /\ forall method_name : string,
      method_name <> "Euler"%string ->
      integrate first_index_particulate method_name f_s f_p w
      = _runge_kutta_4 first_index_particulate f_s f_p w.
Proof.
  split.
  - unfold integrate. now rewrite bind_ret_tt.
  - intros method_name Hne. unfold integrate. rewrite bind_ret_tt.
    destruct (String.eqb_spec method_name "Euler") as [ E | _ ];
      [ contradiction | reflexivity ].
Qed.

(** C10.  After a call of [_euler], of [_runge_kutta_4] or of [integrate]
    that returns normally, the main-outlet vector, the secondary-outlet
    vector and the model's component vector are one and the same list. *)
Theorem integrators_reestablish_cstr
        {R C : Type} `{PyNum R} `{KineticsModel R C}
        (w w' : world R C) (first_index_part : Z) (method_name : string)
        (f_s f_p : R) :
  _euler first_index_part f_s f_p w = (Ok tt, w')
  \/ _runge_kutta_4 first_index_part f_s f_p w = (Ok tt, w')
  \/ integrate first_index_part method_name f_s f_p w = (Ok tt, w') ->
  _mo_comps (self w') = _comps (_sludge (self w'))
  /\ _so_comps (self w') = _comps (_sludge (self w'))
  /\ _mo_comps (self w') = _so_comps (self w').
Proof.
  intros Hrun.
  assert (Hinv : cstr_invariant (self w')).
  { destruct Hrun as [ E | [ E | E ] ].
    - exact (euler_establishes_cstr _ _ _ _ E).
    - exact (runge_kutta_4_establishes_cstr _ _ _ _ E).
    - unfold integrate in E. rewrite bind_ret_tt in E.
      destruct (String.eqb method_name "Euler").
      + exact (euler_establishes_cstr _ _ _ _ E).
      + exact (runge_kutta_4_establishes_cstr _ _ _ _ E). }
  destruct Hinv as [ Hmo Hso ]. repeat split; congruence.
Qed.

Lemma integrators_reestablish_cstr_witness :
  _mo_comps (self (snd (scenario_euler (qc 2 1))))
  = _comps (_sludge (self (snd (scenario_euler (qc 2 1)))))
  /\ _so_comps (self (snd (scenario_euler (qc 2 1))))
     = _comps (_sludge (self (snd (scenario_euler (qc 2 1)))))
  /\ _mo_comps (self (snd (scenario_euler (qc 2 1))))
     = _so_comps (self (snd (scenario_euler (qc 2 1)))).
Proof.
  apply (@integrators_reestablish_cstr Qc unit _ (constant_rate_model scenario_rate)
           scenario_world (snd (scenario_euler (qc 2 1))) 1 "Euler" (qc 1 10) (qc 2 1)).
  left. vm_compute. reflexivity.
Defined.

(** ** Mutators *)

(** C7.  [set_active_vol(v)] with [v > 0] sets the active volume to [v]
    and changes nothing else; otherwise it prints one error line naming
    the reactor, leaves the reactor as it was, and returns normally. *)
Theorem set_active_vol_accepts_only_positive
        {C : Type} (v : Qc) (w : world Qc C) :
  ((0 < v)%Qc ->
   set_active_vol v w
   = (Ok tt, {| self := with_active_vol v (self w);
                stdout := stdout w; dCdt_log := dCdt_log w |})
   /\ _active_vol (with_active_vol v (self w)) = v)
  /\
  (~ (0 < v)%Qc ->
   set_active_vol v w
   = (Ok tt, {| self := self w;
                stdout := stdout w ++
                  ["ERROR: " ++ __name__ (self w) ++ " requires an active vol > 0 M3."]%string;
                dCdt_log := dCdt_log w |})).
Proof.
  split; intros Hv.
  - split; [ | reflexivity ].
    unfold set_active_vol. cbn [num_lt num_of_Z PyNum_Qc].
    apply Qc_ltb_lt in Hv. change (Q2Qc (inject_Z 0)) with 0%Qc. rewrite Hv.
    reflexivity.
  - unfold set_active_vol. cbn [num_lt num_of_Z PyNum_Qc].
    apply Qc_ltb_nlt in Hv. change (Q2Qc (inject_Z 0)) with 0%Qc. rewrite Hv.
    reflexivity.
Qed.

(** C8, as the code has it.  [set_model_condition(Temperature, DO)]
    forwards the two values to the model's [update] exactly when its guard
    [Temperature >= 4 and DO >= 0] holds: the sludge object becomes what
    [update(Temperature, DO)] makes of it and nothing is printed.  In every
    other case (a temperature below 4, a DO below 0, and also a value such
    as NaN, which no comparison accepts) it prints one error line naming
    the reactor, leaves the reactor and its model as they were, and
    returns normally.  This holds whatever the number type. *)
Theorem set_model_condition_forwards_only_under_its_guard
        {R C : Type} `{PyNum R} `{KineticsModel R C}
        (Temperature DO : R) (w : world R C) :
  (num_le (num_of_Z 4) Temperature = true /\ num_le (num_of_Z 0) DO = true ->
   set_model_condition Temperature DO w
   = (Ok tt, {| self := with_sludge (update (_sludge (self w)) Temperature DO) (self w);
                stdout := stdout w; dCdt_log := dCdt_log w |}))
  /\
  (~ (num_le (num_of_Z 4) Temperature = true /\ num_le (num_of_Z 0) DO = true) ->
   set_model_condition Temperature DO w
   = (Ok tt, {| self := self w;
                stdout := stdout w ++
                  ["ERROR: " ++ __name__ (self w) ++ " given crazy temperature or DO."]%string;
                dCdt_log := dCdt_log w |})).
Proof.
  unfold set_model_condition. split; intros Hc.
  - destruct Hc as [ Ht Hd ]. rewrite Ht, Hd. reflexivity.
  - destruct (num_le (num_of_Z 4) Temperature); [ | reflexivity ].
    destruct (num_le (num_of_Z 0) DO); [ | reflexivity ].
    exfalso. apply Hc. now split.
Qed.

(** In exact arithmetic the order is total, and the guard fails exactly
    when [Temperature < 4] or [DO < 0], which is how the specification
    words the rejection. *)
Lemma rational_guard_fails_iff (Temperature DO : Qc) :
  (num_le (num_of_Z 4) Temperature && num_le (num_of_Z 0) DO)%bool = false
  <-> (Temperature < qc 4 1)%Qc \/ (DO < 0)%Qc.
Proof.
  cbn [num_le num_of_Z PyNum_Qc].
  change (Q2Qc (inject_Z 4)) with (qc 4 1). change (Q2Qc (inject_Z 0)) with 0%Qc.
  rewrite andb_false_iff. split.
  - intros [ E | E ]; [ left | right ]; apply Qcnot_le_lt; intros Hle;
      apply Qc_leb_le in Hle; congruence.
  - intros [ Hlt | Hlt ]; [ left | right ].
    + destruct (Qc_leb (qc 4 1) Temperature) eqn:E; [ | reflexivity ].
      apply Qc_leb_le in E. now apply Qcle_not_lt in E.
    + destruct (Qc_leb 0 DO) eqn:E; [ | reflexivity ].
      apply Qc_leb_le in E. now apply Qcle_not_lt in E.
Qed.

(** ** The Runge-Kutta scheme as the specification writes it *)

Lemma zip_with_map_r {A B B' D : Type} (f : A -> B' -> D) (g : B -> B')
      (a : list A) (b : list B) :
  zip_with f a (map g b) = zip_with (fun x y => f x (g y)) a b.
Proof.
  revert b. induction a as [ | x a IH ]; intros [ | y b ]; simpl;
    try reflexivity. now rewrite IH.
Qed.

Lemma zip_with_ext {A B D : Type} (f g : A -> B -> D) (a : list A) (b : list B) :
  (forall x y, f x y = g x y) -> zip_with f a b = zip_with g a b.
Proof.
  intros Hfg. revert b. induction a as [ | x a IH ]; intros [ | y b ]; simpl;
    try reflexivity. now rewrite Hfg, IH.
Qed.

Lemma axpy_vadd (base k : list Qc) (h : Qc) :
  axpy base h k = vadd base (vscale h k).
Proof. unfold axpy, vadd, vscale. now rewrite zip_with_map_r. Qed.

Lemma six_nonzero : qc 6 1 <> 0%Qc.
Proof. intros E. apply (f_equal this) in E. vm_compute in E. discriminate E. Qed.

Lemma rk4_next_vadd (comps k1 k2 k3 k4 : list Qc) (h : Qc) :
  rk4_next comps k1 k2 k3 k4 h
  = vadd comps
      (vscale (h / qc 6 1)
         (vadd (vadd (vadd k1 (vscale (qc 2 1) k2)) (vscale (qc 2 1) k3)) k4)).
Proof.
  unfold rk4_next, vadd, vscale.
  rewrite (zip_with_map_r Qcplus (Qcmult (h / qc 6 1)) comps).
  apply zip_with_ext. intros c s.
  cbn [num_add num_mul num_div num_of_Z PyNum_Qc].
  change (Q2Qc (inject_Z 6)) with (qc 6 1).
  field. exact six_nonzero.
Qed.

Section StepSizes.
Context {R : Type} `{PyNum R}.
Local Open Scope py_scope.

Lemma rk4_steps_inv (d comps : list R) (first_index_part : Z) (f_s f_p : R)
      (st : steps) :
  rk4_steps d comps first_index_part f_s f_p = Ok st ->
  exists us up,
    uppers_sol d comps first_index_part = Ok us
    /\ uppers_part d comps first_index_part = Ok up
    /\ py_min us = Ok (_max_step_sol st)
    /\ py_min up = Ok (_max_step_part st)
    /\ _step_sol st = f_s * _max_step_sol st
    /\ _step_part st = f_p * _max_step_part st.
Proof.
  unfold rk4_steps, rbind.
  destruct (uppers_sol d comps first_index_part) as [ us | ]; [ | discriminate ].
  destruct (uppers_part d comps first_index_part) as [ up | ]; [ | discriminate ].
  destruct (py_min us) as [ ms | ] eqn:Ems; [ | discriminate ].
  destruct (py_min up) as [ mp | ] eqn:Emp; [ | discriminate ].
  intros E. injection E as <-. exists us, up. repeat split; assumption || reflexivity.
Qed.

Lemma euler_steps_inv (d comps : list R) (first_index_part : Z) (f_s f_p : R)
      (st : steps) :
  euler_steps d comps first_index_part f_s f_p = Ok st ->
  exists us up,
    uppers_sol d comps first_index_part = Ok us
    /\ uppers_part d comps first_index_part = Ok up
    /\ py_min us = Ok (_max_step_sol st)
    /\ py_min up = Ok (_max_step_part st)
    /\ _step_sol st = f_s * _max_step_sol st
    /\ _step_part st = f_s * _max_step_part st.
Proof.
  unfold euler_steps, rbind.
  destruct (uppers_sol d comps first_index_part) as [ us | ]; [ | discriminate ].
  destruct (uppers_part d comps first_index_part) as [ up | ]; [ | discriminate ].
  destruct (py_min us) as [ ms | ] eqn:Ems; [ | discriminate ].
  destruct (py_min up) as [ mp | ] eqn:Emp; [ | discriminate ].
  intros E. injection E as <-. exists us, up. repeat split; assumption || reflexivity.
Qed.
End StepSizes.

(** In exact arithmetic and on a reactor whose mixed-outlet vector is its
    sludge state, the scheme the code computes is the one the
    specification writes: rates at [state], [state + (h/2) k1],
    [state + (h/2) k2] and [state + h k3], and the new state
    [state + (h/6) (k1 + 2 k2 + 2 k3 + k4)]. *)
Lemma runge_kutta_4_textbook_form_over_rationals
        {C : Type} `{KineticsModel Qc C}
        (w : world Qc C) (first_index_part : Z) (f_s f_p : Qc) (st : steps) :
  let r := self w in
  let state := _comps (_sludge r) in
  let h := _step_sol st in
  let k1 := rate_of r state in
  let k2 := rate_of r (vadd state (vscale (h / qc 2 1) k1)) in
  let k3 := rate_of r (vadd state (vscale (h / qc 2 1) k2)) in
  let k4 := rate_of r (vadd state (vscale h k3)) in
  _mo_comps r = state ->
  rk4_steps k1 state first_index_part f_s f_p = Ok st ->
  length k1 = length state -> length k2 = length state ->
  length k3 = length state -> length k4 = length state ->
  exists w',
    _runge_kutta_4 first_index_part f_s f_p w = (Ok tt, w')
    /\ dCdt_log w'
       = dCdt_log w ++
         [ {| call_vol := _active_vol r; call_flow := _total_inflow r;
              call_in_comps := _in_comps r; call_comps := state |};
           {| call_vol := _active_vol r; call_flow := _total_inflow r;
              call_in_comps := _in_comps r;
              call_comps := vadd state (vscale (h / qc 2 1) k1) |};
           {| call_vol := _active_vol r; call_flow := _total_inflow r;
              call_in_comps := _in_comps r;
              call_comps := vadd state (vscale (h / qc 2 1) k2) |};
           {| call_vol := _active_vol r; call_flow := _total_inflow r;
              call_in_comps := _in_comps r;
              call_comps := vadd state (vscale h k3) |} ]
    /\ _comps (_sludge (self w'))
       = vadd state
           (vscale (h / qc 6 1)
              (vadd (vadd (vadd k1 (vscale (qc 2 1) k2)) (vscale (qc 2 1) k3)) k4))
    /\ exists us m,
        uppers_sol k1 state first_index_part = Ok us
        /\ py_min us = Ok m
        /\ h = (f_s * m)%Qc.
Proof.
  intros r state h k1 k2 k3 k4 Hmo Hst H1 H2 H3 H4.
  pose proof (@_runge_kutta_4_run Qc C _ _ w first_index_part f_s f_p st) as Hrun.
  cbv zeta in Hrun. fold r in Hrun. rewrite Hmo in Hrun. fold state in Hrun.
  fold h in Hrun.
  change (num_div h (num_of_Z 2)) with (h / qc 2 1)%Qc in Hrun.
  rewrite !axpy_vadd in Hrun. fold k1 k2 k3 k4 in Hrun.
  specialize (Hrun Hst eq_refl H1 H2 H3 H4).
  eexists. split; [ exact Hrun | ].
  split; [ reflexivity | ].
  split.
  - cbn [self publish_comps with_mo_comps with_so_comps with_comps with_sludge
              _sludge _comps].
    apply rk4_next_vadd.
  - destruct (rk4_steps_inv _ _ _ _ _ Hst) as (us & up & Hus & _ & Hms & _ & Hh & _).
    exists us, (_max_step_sol st). repeat split; assumption.
Qed.

(** ** The snapshots of a discharge cycle *)

Section Discharge.
Context {R C : Type} `{PyNum R} `{KineticsModel R C}.
Variables _branch_flow_helper _discharge_main_outlet : M R C unit.
Local Open Scope py_scope.

(** What [discharge] does after its two snapshot assignments. *)
Lemma keeps_snapshots_after_snapshot :
  keeps_snapshots _discharge_main_outlet ->
  keeps_snapshots
    (integrate 7 "Euler" (num_div (num_of_Z 5) (num_of_Z 100)) (num_of_Z 2) ;;
     modify_self (fun r : asm_reactor R C => with_so_comps (_mo_comps r) r) ;;
     _discharge_main_outlet ;;
     ret tt).
Proof.
  intros Hdmo.
  apply keeps_snapshots_bind; [ apply keeps_snapshots_integrate | intros _ ].
  apply keeps_snapshots_bind; [ apply keeps_snapshots_so_comps | intros _ ].
  apply keeps_snapshots_bind; [ exact Hdmo | intros _ ].
  apply keeps_snapshots_ret.
Qed.

Lemma discharge_snapshots (w w1 : world R C) :
  _branch_flow_helper w = (Ok tt, w1) ->
  keeps_snapshots _discharge_main_outlet ->
  prev_snapshots (snd (discharge _branch_flow_helper _discharge_main_outlet w))
  = (_mo_comps (self w1), _mo_comps (self w1)).
Proof.
  intros Hbranch Hdmo. unfold discharge.
  unfold bind at 1. rewrite Hbranch.
  unfold bind at 1, modify_self at 1.
  unfold bind at 1, modify_self at 1.
  rewrite (keeps_snapshots_after_snapshot Hdmo). reflexivity.
Qed.
End Discharge.

(** C6, as the code has it.  In a discharge cycle whose flow-splitting
    step returns normally without touching the mixed-outlet vector, and
    whose hand-over to the downstream unit does not touch the snapshots:
    both "previous" snapshots end the cycle equal to the mixed-outlet
    vector as it was before the cycle, whether or not the integration
    succeeds; so the secondary snapshot equals the secondary outlet's
    pre-cycle value exactly when the two outlet vectors agreed. *)
Theorem discharge_snapshots_both_from_main_outlet
        {R C : Type} `{PyNum R} `{KineticsModel R C}
        (_branch_flow_helper _discharge_main_outlet : M R C unit)
        (w w1 : world R C) :
  _branch_flow_helper w = (Ok tt, w1) ->
  _mo_comps (self w1) = _mo_comps (self w) ->
  keeps_snapshots _discharge_main_outlet ->
  let w' := snd (discharge _branch_flow_helper _discharge_main_outlet w) in
  _prev_mo_comps (self w') = _mo_comps (self w)
  /\ _prev_so_comps (self w') = _mo_comps (self w)
  /\ (_prev_so_comps (self w') = _so_comps (self w)
      <-> _mo_comps (self w) = _so_comps (self w)).
Proof.
  intros Hbranch Hmo Hdmo w'.
  pose proof (@discharge_snapshots R C _ _ _ _ w w1 Hbranch Hdmo) as Hsnap.
  fold w' in Hsnap. unfold prev_snapshots in Hsnap. rewrite Hmo in Hsnap.
  injection Hsnap as Hpm Hps.
  split; [ exact Hpm | ]. split; [ exact Hps | ].
  rewrite Hps. reflexivity.
Qed.

Lemma discharge_snapshots_both_from_main_outlet_witness :
  _prev_mo_comps (self (snd cycle_discharge)) = _mo_comps (self cycle_world)
  /\ _prev_so_comps (self (snd cycle_discharge)) = _mo_comps (self cycle_world)
  /\ (_prev_so_comps (self (snd cycle_discharge)) = _so_comps (self cycle_world)
      <-> _mo_comps (self cycle_world) = _so_comps (self cycle_world)).
Proof.
  apply (@discharge_snapshots_both_from_main_outlet
           Qc unit _ (constant_rate_model cycle_rate) (ret tt) (ret tt)
           cycle_world cycle_world eq_refl eq_refl).
  intros w. reflexivity.
Defined.

(** C6, as the specification words it, fails whenever the two outlet
    vectors differ before the cycle.  On a reactor fresh from
    [assign_initial_guess] the cycle succeeds, the secondary outlet held
    zeros before it, and the secondary snapshot holds the initial guess,
    the value of the main outlet.  The same happens on a reactor that has
    completed a cycle (both outlets at 9.5) and is seeded again with 20:
    the secondary snapshot of the next cycle is 20, not 9.5. *)
Lemma discharge_secondary_snapshot_is_not_secondary_outlet :
  (fst cycle_discharge = Ok tt
   /\ _so_comps (self cycle_world) = map (fun _ => qc 0 1) (seq 0 13)
   /\ _prev_so_comps (self (snd cycle_discharge)) = cycle_state
   /\ _prev_so_comps (self (snd cycle_discharge)) <> _so_comps (self cycle_world))
  /\
  (fst reseeded_discharge = Ok tt
   /\ _so_comps (self reseeded_world) = map (fun _ => qc 19 2) (seq 0 13)
   /\ _prev_so_comps (self (snd reseeded_discharge)) = reseed_state
   /\ _prev_so_comps (self (snd reseeded_discharge)) <> _so_comps (self reseeded_world)).
Proof.
  split.
  - split; [ vm_compute; reflexivity | ].
    split; [ reflexivity | ].
    split; [ reflexivity | ].
    intros E. vm_compute in E. discriminate E.
  - split; [ vm_compute; reflexivity | ].
    split; [ qc_list_eq | ].
    split; [ reflexivity | ].
    intros E. apply (f_equal (map this)) in E. vm_compute in E. discriminate E.
Qed.

(** The world of that cycle is the one [assign_initial_guess] makes of a
    reactor whose vectors are all zeros. *)
Lemma cycle_world_reached :
  @assign_initial_guess Qc unit cycle_state
    (world_of (reactor_with tt (map (fun _ => qc 0 1) (seq 0 13))))
  = (Ok tt, cycle_world).
Proof. reflexivity. Qed.

(** ** The step-size rule against the specification's candidate bounds *)

Lemma py_range_from_zero (b : Z) :
  py_range 0 b = map Z.of_nat (seq 0 (Z.to_nat b)).
Proof.
  unfold py_range. rewrite Z.sub_0_r. apply map_ext. intros k. apply Z.add_0_l.
Qed.

Lemma py_range_from (a b : Z) :
  (0 <= a)%Z ->
  py_range a b = map Z.of_nat (seq (Z.to_nat a) (Z.to_nat (b - a))).
Proof.
  intros Ha. unfold py_range.
  rewrite <- (Nat.add_0_l (Z.to_nat a)) at 1.
  replace (seq (0 + Z.to_nat a) (Z.to_nat (b - a)))
    with (map (fun k => k + Z.to_nat a) (seq 0 (Z.to_nat (b - a)))).
  - rewrite map_map. apply map_ext. intros k. lia.
  - generalize (Z.to_nat (b - a)) as n. generalize 0 as s.
    intros s n. revert s. induction n as [ | n IH ]; intros s; simpl;
      [ reflexivity | ].
    f_equal. apply IH.
Qed.

Lemma Qc_nonzero_abs (x : Qc) :
  py_nonzero x = true -> Qc_eqb (Qcabs x) 0 = false.
Proof.
  unfold py_nonzero. cbn [num_eq num_of_Z PyNum_Qc].
  change (Q2Qc (inject_Z 0)) with 0%Qc.
  intros Hx. destruct (Qc_eqb (Qcabs x) 0) eqn:E; [ | reflexivity ].
  apply Qc_eqb_eq, Qcabs_null in E. subst x. discriminate Hx.
Qed.

Lemma uppers_loop_candidates (rate comps : list Qc) :
  forall (partition : list nat) (acc : list Qc),
    (forall i, In i partition -> i < length rate /\ i < length comps) ->
    uppers_loop rate comps (map Z.of_nat partition) acc
    = Ok (acc ++ candidate_bounds rate comps partition).
Proof.
  induction partition as [ | i rest IH ]; intros acc Hin.
  - simpl. now rewrite app_nil_r.
  - destruct (Hin i (or_introl eq_refl)) as [ Hr Hc ].
    cbn [map uppers_loop]. unfold rbind at 1.
    rewrite (py_getitem_nat rate 0%Qc Hr).
    unfold candidate_bounds. cbn [filter].
    destruct (py_nonzero (nth i rate 0%Qc)) eqn:Hnz.
    + unfold rbind at 1. rewrite (py_getitem_nat comps 0%Qc Hc).
      unfold rbind at 1, py_truediv. cbn [num_eq num_of_Z num_abs num_div PyNum_Qc].
      change (Q2Qc (inject_Z 0)) with 0%Qc.
      rewrite (Qc_nonzero_abs _ Hnz).
      rewrite IH by (intros j Hj; apply Hin; now right).
      cbn [map]. unfold candidate_bounds. now rewrite <- app_assoc.
    + apply IH. intros j Hj. apply Hin. now right.
Qed.

Lemma uppers_sol_candidates (rate comps : list Qc) (first_index_part : Z) :
  length rate = length comps ->
  (first_index_part <= Z.of_nat (length rate))%Z ->
  uppers_sol rate comps first_index_part
  = Ok (candidate_bounds rate comps (seq 0 (Z.to_nat first_index_part))).
Proof.
  intros Hlen Hfip. unfold uppers_sol. rewrite py_range_from_zero.
  rewrite uppers_loop_candidates; [ reflexivity | ].
  intros i Hi. apply in_seq in Hi. lia.
Qed.

Lemma uppers_part_candidates (rate comps : list Qc) (first_index_part : Z) :
  length rate = length comps ->
  (0 <= first_index_part)%Z ->
  uppers_part rate comps first_index_part
  = Ok (candidate_bounds rate comps
          (seq (Z.to_nat first_index_part)
               (length rate - Z.to_nat first_index_part))).
Proof.
  intros Hlen Hfip. unfold uppers_part. rewrite (py_range_from _ Hfip).
  replace (Z.to_nat (Z.of_nat (length rate) - first_index_part))
    with (length rate - Z.to_nat first_index_part) by lia.
  rewrite uppers_loop_candidates; [ reflexivity | ].
  intros i Hi. apply in_seq in Hi. lia.
Qed.




(** ** Non-negativity of the soluble components after an Euler step *)

















(** ** The mutators and the dispatch on concrete reactors *)

Lemma set_active_vol_accepts_only_positive_witness :
  _active_vol (self (snd (set_active_vol (qc 380 1) scenario_world))) = qc 380 1
  /\ fst (set_active_vol (qc 0 1) scenario_world) = Ok tt
  /\ self (snd (set_active_vol (qc 0 1) scenario_world)) = self scenario_world
  /\ stdout (snd (set_active_vol (qc 0 1) scenario_world))
     = ["ERROR: ASMReactor_1 requires an active vol > 0 M3."%string].
Proof.
  destruct (@set_active_vol_accepts_only_positive unit (qc 380 1) scenario_world)
    as [ Hpos _ ].
  destruct (@set_active_vol_accepts_only_positive unit (qc 0 1) scenario_world)
    as [ _ Hneg ].
  destruct Hpos as [ Hrun _ ]; [ reflexivity | ].
  rewrite Hrun, Hneg by (intros Hlt; discriminate Hlt).
  repeat split; reflexivity.
Defined.

Lemma set_model_condition_forwards_only_under_its_guard_witness :
  _model (_sludge (self (snd (@set_model_condition Qc (Qc * Qc) _ conditions_model
                                 (qc 25 1) (qc 1 1) conditions_world))))
  = (qc 25 1, qc 1 1)
  /\ @set_model_condition Qc (Qc * Qc) _ conditions_model
       (qc 3 1) (qc 1 1) conditions_world
     = (Ok tt, {| self := self conditions_world;
                  stdout := ["ERROR: ASMReactor_1 given crazy temperature or DO."%string];
                  dCdt_log := [] |})
  /\ _model (_sludge (self (snd (@set_model_condition float (float * float) _
                                    conditions_model_float
                                    25%float 1%float conditions_world_float))))
     = (25%float, 1%float)
  /\ @set_model_condition float (float * float) _ conditions_model_float
       20%float (-1)%float conditions_world_float
     = (Ok tt, {| self := self conditions_world_float;
                  stdout := ["ERROR: ASMReactor_1 given crazy temperature or DO."%string];
                  dCdt_log := [] |}).
Proof.
  destruct (@set_model_condition_forwards_only_under_its_guard
              Qc (Qc * Qc) _ conditions_model
              (qc 25 1) (qc 1 1) conditions_world) as [ Hok _ ].
  destruct (@set_model_condition_forwards_only_under_its_guard
              Qc (Qc * Qc) _ conditions_model
              (qc 3 1) (qc 1 1) conditions_world) as [ _ Hcold ].
  destruct (@set_model_condition_forwards_only_under_its_guard
              float (float * float) _ conditions_model_float
              25%float 1%float conditions_world_float) as [ Hokf _ ].
  destruct (@set_model_condition_forwards_only_under_its_guard
              float (float * float) _ conditions_model_float
              20%float (-1)%float conditions_world_float) as [ _ Hdof ].
  rewrite Hok by (split; reflexivity).
  rewrite Hcold by (intros [ Ht _ ]; discriminate Ht).
  rewrite Hokf by (split; reflexivity).
  rewrite Hdof by (intros [ _ Hd ]; discriminate Hd).
  repeat split; reflexivity.
Defined.

(** C8, as the specification words it, fails in binary64.  With
    [Temperature = NaN] and [DO = 2] neither [Temperature < 4] nor
    [DO < 0] holds, and yet the values are not forwarded: the call prints
    the error line and the model stays at 20 degrees and 2 mg/L. *)
Lemma set_model_condition_rejects_nan :
  @num_lt float _ PrimFloat.nan (num_of_Z 4) = false
  /\ @num_lt float _ 2%float (num_of_Z 0) = false
  /\ @set_model_condition float (float * float) _ conditions_model_float
       PrimFloat.nan 2%float conditions_world_float
     = (Ok tt, {| self := self conditions_world_float;
                  stdout := ["ERROR: ASMReactor_1 given crazy temperature or DO."%string];
                  dCdt_log := [] |})
  /\ _model (_sludge (self conditions_world_float)) = (20%float, 2%float).
Proof. repeat split; vm_compute; reflexivity. Qed.

Lemma integrate_dispatches_on_Euler_only_witness :
  @integrate Qc unit _ (constant_rate_model scenario_rate) 1 "Euler" (qc 1 10) (qc 2 1)
             scenario_world
  = scenario_euler (qc 2 1)
  /\ @integrate Qc unit _ (constant_rate_model scenario_rate) 1 "RK4" (qc 1 10) (qc 2 1)
                scenario_world
     = scenario_runge_kutta_4
  /\ @integrate Qc unit _ (constant_rate_model scenario_rate) 1 "euler" (qc 1 10) (qc 2 1)
                scenario_world
     = scenario_runge_kutta_4.
Proof.
  destruct (@integrate_dispatches_on_Euler_only
              Qc unit _ (constant_rate_model scenario_rate) scenario_world
              1 (qc 1 10) (qc 2 1)) as [ Heuler Hother ].
  split; [ exact Heuler | ].
  split; apply Hother; intros E; discriminate E.
Defined.

(** ** Steady state in general *)

Lemma candidate_bounds_of_zero_rates (rate comps : list Qc) (partition : list nat) :
  Forall (fun x => x = 0%Qc) rate ->
  candidate_bounds rate comps partition = [].
Proof.
  intros Hzero. unfold candidate_bounds.
  replace (filter (fun i => py_nonzero (nth i rate 0%Qc)) partition) with (@nil nat);
    [ reflexivity | ].
  symmetry. induction partition as [ | i rest IH ]; [ reflexivity | ].
  cbn [filter].
  assert (E : nth i rate 0%Qc = 0%Qc).
  { destruct (Nat.lt_ge_cases i (length rate)) as [ Hi | Hi ].
    - rewrite Forall_forall in Hzero. apply Hzero, nth_In, Hi.
    - now apply nth_overflow. }
  rewrite E. exact IH.
Qed.

(** Whenever the rate vector is all zeros (and has the state's length, with
    the partition boundary inside it), both integrators raise
    [ValueError] from [min] of an empty list and leave the reactor as it
    was: the steady state is not integrated, it is refused. *)
Lemma zero_rates_raise_ValueError
      {C : Type} `{KineticsModel Qc C}
      (w : world Qc C) (first_index_part : Z) (f_s f_p : Qc) :
  let r := self w in
  Forall (fun x => x = 0%Qc) (rate_of r (_mo_comps r)) ->
  length (rate_of r (_mo_comps r)) = length (_comps (_sludge r)) ->
  (0 <= first_index_part <= Z.of_nat (length (_comps (_sludge r))))%Z ->
  (fst (_euler first_index_part f_s f_p w) = Raise ValueError
   /\ self (snd (_euler first_index_part f_s f_p w)) = self w)
  /\ (fst (_runge_kutta_4 first_index_part f_s f_p w) = Raise ValueError
      /\ self (snd (_runge_kutta_4 first_index_part f_s f_p w)) = self w).
Proof.
  intros r Hzero Hlen Hfip.
  assert (Hsol : uppers_sol (rate_of r (_mo_comps r)) (_comps (_sludge r))
                            first_index_part = Ok []).
  { rewrite (@uppers_sol_candidates _ _ first_index_part Hlen) by lia.
    now rewrite candidate_bounds_of_zero_rates. }
  assert (Hpart : uppers_part (rate_of r (_mo_comps r)) (_comps (_sludge r))
                              first_index_part = Ok []).
  { rewrite (@uppers_part_candidates _ _ first_index_part Hlen) by lia.
    now rewrite candidate_bounds_of_zero_rates. }
  assert (He : _euler first_index_part f_s f_p w
               = (Raise ValueError,
                  {| self := r; stdout := stdout w;
                     dCdt_log := dCdt_log w ++ [logged_call r (_mo_comps r)] |})).
  { unfold _euler.
    unfold bind at 1, get_self at 1.
    unfold bind at 1, call_dCdt at 1.
    unfold bind at 1, lift at 1. cbn [self].
    fold r. fold (rate_of r (_mo_comps r)).
    unfold euler_steps. rewrite Hsol, Hpart. reflexivity. }
  assert (Hr : _runge_kutta_4 first_index_part f_s f_p w
               = (Raise ValueError,
                  {| self := r; stdout := stdout w;
                     dCdt_log := dCdt_log w ++ [logged_call r (_mo_comps r)] |})).
  { unfold _runge_kutta_4.
    unfold bind at 1, get_self at 1.
    unfold bind at 1, call_dCdt at 1.
    unfold bind at 1, lift at 1. cbn [self].
    fold r. fold (rate_of r (_mo_comps r)).
    unfold rk4_steps. rewrite Hsol, Hpart. reflexivity. }
  rewrite He, Hr. repeat split; reflexivity.
Qed.

(** The soluble fraction of the binary64 scenario is the double that the
    literal [0.1] denotes. *)
Lemma float_tenth_is_the_literal : float_tenth = 0x1.999999999999ap-4%float.
Proof. reflexivity. Qed.

(** ** The complete outcome of [_euler] *)

Section EulerOutcome.
Context {R C : Type} `{PyNum R} `{KineticsModel R C}.
Local Open Scope py_scope.

Lemma py_getitem_beyond {A : Type} (l : list A) (i : nat) :
  length l <= i -> py_getitem l (Z.of_nat i) = Raise IndexError.
Proof.
  intros Hi. unfold py_getitem, py_index.
  destruct (Z.ltb_spec (Z.of_nat i) 0) as [ Hneg | _ ]; [ lia | ].
  destruct (Z.ltb_spec (Z.of_nat i) (Z.of_nat (length l))) as [ Hlt | _ ]; [ lia | ].
  now rewrite andb_false_r.
Qed.

Lemma length_euler_advance (h : R) :
  forall (m : nat) (comps d : list R),
    length (euler_advance comps d m h) = length comps.
Proof.
  induction m as [ | m IH ]; intros [ | c comps ] [ | di d ]; simpl;
    try reflexivity. now rewrite IH.
Qed.

Lemma nth_euler_advance (h z : R) :
  forall (m : nat) (comps d : list R) (i : nat),
    nth i (euler_advance comps d m h) z
    = if ((i <? m) && (i <? length comps) && (i <? length d))%bool
      then nth i comps z + nth i d z * h
      else nth i comps z.
Proof.
  induction m as [ | m IH ]; intros comps d i.
  - destruct comps, d; reflexivity.
  - destruct comps as [ | c comps ]; [ now rewrite andb_false_r | ].
    destruct d as [ | di d ]; [ simpl; now rewrite andb_false_r | ].
    destruct i as [ | i ]; [ reflexivity | ].
    cbn [euler_advance nth length]. rewrite IH. reflexivity.
Qed.

(** The update loop, from any point of its run: [done] components are
    behind it, [todo] are ahead, and it goes on for [n] more indices. *)
Lemma euler_loop_outcome (h : R) :
  forall (n : nat) (todo d2 done d1 : list R) (w : world R C),
    length done = length d1 ->
    _comps (_sludge (self w)) = (done ++ todo)%list ->
    euler_loop (d1 ++ d2) h (seq (length done) n) w
    = (if ((n <=? length todo) && (n <=? length d2))%bool
       then Ok tt else Raise IndexError,
       set_comps (done ++ euler_advance todo d2 n h) w).
Proof.
  induction n as [ | n IH ]; intros todo d2 done d1 w Hlen Hw.
  - simpl. unfold ret. rewrite set_comps_same; [ reflexivity | ].
    destruct todo, d2; exact Hw.
  - simpl seq. simpl euler_loop.
    unfold bind at 1, get_self at 1. rewrite Hw.
    destruct todo as [ | c todo ].
    { unfold bind at 1, lift at 1.
      rewrite py_getitem_beyond by (rewrite length_app; simpl; lia).
      simpl. rewrite set_comps_same; [ reflexivity | exact Hw ]. }
    unfold bind at 1, lift at 1. rewrite py_getitem_app.
    destruct d2 as [ | dj d2 ].
    { unfold bind at 1, lift at 1. rewrite Hlen.
      rewrite py_getitem_beyond by (rewrite length_app; simpl; lia).
      cbn [euler_advance length]. rewrite andb_false_r.
      rewrite set_comps_same; [ reflexivity | exact Hw ]. }
    unfold bind at 1, lift at 1. rewrite Hlen, py_getitem_app, <- Hlen.
    unfold bind at 1, lift at 1. rewrite py_setitem_app.
    unfold bind at 1, modify_self at 1.
    replace (S (length done)) with (length (done ++ [c + dj * h]))
      by (rewrite length_app; simpl; lia).
    replace (d1 ++ dj :: d2)%list with ((d1 ++ [dj]) ++ d2)%list
      by (now rewrite <- app_assoc).
    rewrite (IH todo d2 (done ++ [c + dj * h])%list (d1 ++ [dj])%list).
    + cbn [euler_advance length]. rewrite <- app_assoc. reflexivity.
    + rewrite !length_app. simpl. lia.
    + simpl. now rewrite <- app_assoc.
Qed.

(** Every call of [_euler], by cases: the step sizes fail and the reactor
    is as it was; or the loop runs off the end of the sludge components or
    of the rate vector and raises [IndexError] with the components reached
    so far advanced and nothing published; or the call returns with the
    first [len(_mo_comps)] components advanced and published. *)
Lemma _euler_outcome (w : world R C) (first_index_part : Z) (f_s f_p : R) :
  let r := self w in
  let comps := _comps (_sludge r) in
  let mo := _mo_comps r in
  let d := rate_of r mo in
  _euler first_index_part f_s f_p w
  = match euler_steps d comps first_index_part f_s f_p with
    | Raise e => (Raise e, after_call r mo w)
    | Ok st =>
        let comps' := euler_advance comps d (length mo) (_step_sol st) in
        if ((length mo <=? length comps) && (length mo <=? length d))%bool
        then (Ok tt, after_call (publish_comps (with_comps comps' r)) mo w)
        else (Raise IndexError, after_call (with_comps comps' r) mo w)
    end.
Proof.
  intros r comps mo d.
  unfold _euler.
  unfold bind at 1, get_self at 1.
  unfold bind at 1, call_dCdt at 1.
  unfold bind at 1, lift at 1. cbn [self].
  fold r. fold mo. fold (rate_of r mo). fold d. fold comps.
  destruct (euler_steps d comps first_index_part f_s f_p) as [ st | e ];
    [ | reflexivity ].
  unfold bind at 1. unfold range_len. fold mo.
  pose proof (@euler_loop_outcome (_step_sol st) (length mo) comps d [] []) as Hloop.
  simpl in Hloop. rewrite Hloop by reflexivity.
  destruct ((length mo <=? length comps) && (length mo <=? length d))%bool;
    reflexivity.
Qed.
End EulerOutcome.

Section IntegratorOutcomes.
Context {R C : Type} `{PyNum R} `{KineticsModel R C}.
Local Open Scope py_scope.

Lemma py_listcomp_length {A : Type} (f : nat -> result A) :
  forall (idx : list nat) (l : list A),
    py_listcomp f idx = Ok l -> length l = length idx.
Proof.
  induction idx as [ | i idx IH ]; intros l; simpl.
  - intros E. injection E as <-. reflexivity.
  - destruct (f i) as [ x | e ]; [ | discriminate ].
    destruct (py_listcomp f idx) as [ xs | e ]; [ | discriminate ].
    intros E. injection E as <-. simpl. now rewrite (IH xs eq_refl).
Qed.

Ltac split_outcomes E :=
  repeat match type of E with
         | context [match ?x with _ => _ end] => destruct x eqn:?
         end.

(** Whatever it does, [_runge_kutta_4] assigns to the reactor only at its
    very end. *)
Lemma _runge_kutta_4_cases (w : world R C) (first_index_part : Z) (f_s f_p : R) :
  (exists e w', _runge_kutta_4 first_index_part f_s f_p w = (Raise e, w')
                /\ self w' = self w /\ stdout w' = stdout w)
  \/ (exists new_comps w',
         _runge_kutta_4 first_index_part f_s f_p w = (Ok tt, w')
         /\ self w' = publish_comps (with_comps new_comps (self w))
         /\ stdout w' = stdout w
         /\ length new_comps = length (_comps (_sludge (self w)))
         /\ length (dCdt_log w') = (length (dCdt_log w) + 4)%nat).
Proof.
  destruct (_runge_kutta_4 first_index_part f_s f_p w) as [ res wf ] eqn:E.
  unfold _runge_kutta_4, bind, get_self, call_dCdt, lift, modify_self, ret in E.
  cbn [self stdout dCdt_log] in E.
  split_outcomes E; injection E as <- <-;
    try (left; do 2 eexists; repeat split; reflexivity).
  right. do 2 eexists. split; [ reflexivity | ].
  split; [ reflexivity | ]. split; [ reflexivity | ].
  split.
  - match goal with
    | Hc : rk4_combine _ _ _ _ _ _ = Ok _ |- _ =>
        unfold rk4_combine in Hc; apply py_listcomp_length in Hc; rewrite Hc
    end.
    unfold range_len. apply length_seq.
  - cbn [dCdt_log]. rewrite !length_app. simpl. lia.
Qed.
End IntegratorOutcomes.

(** ** What the integrators do to the reactor, success or failure *)

(** X1.  A call of [_euler] that returns normally made one rate
    evaluation, had step sizes, and found [_mo_comps] no longer than the
    sludge components and the rate vector; it advanced exactly the first
    [len(_mo_comps)] sludge components by [rate[i] * _step_sol] and left
    any component beyond that index as it was. *)
Theorem euler_success_advances_first_components
        {R C : Type} `{PyNum R} `{KineticsModel R C}
        (w w' : world R C) (first_index_part : Z) (f_s f_p : R) :
  let r := self w in
  let comps := _comps (_sludge r) in
  let mo := _mo_comps r in
  let d := rate_of r mo in
  _euler first_index_part f_s f_p w = (Ok tt, w') ->
  exists st,
    euler_steps d comps first_index_part f_s f_p = Ok st
    /\ length mo <= length comps
    /\ length mo <= length d
    /\ (forall (i : nat) (z : R),
           nth i (_comps (_sludge (self w'))) z
           = if i <? length mo
             then num_add (nth i comps z) (num_mul (nth i d z) (_step_sol st))
             else nth i comps z)
    /\ dCdt_log w' = dCdt_log w ++ [logged_call r mo]
    /\ stdout w' = stdout w.
Proof.
  intros r comps mo d E.
  rewrite _euler_outcome in E. fold r comps mo d in E.
  destruct (euler_steps d comps first_index_part f_s f_p) as [ st | e ];
    [ | discriminate ].
  exists st. split; [ reflexivity | ].
  cbv zeta in E.
  destruct ((length mo <=? length comps) && (length mo <=? length d))%bool eqn:Hm;
    [ | discriminate ].
  apply andb_true_iff in Hm. destruct Hm as [ Hc Hd ].
  apply Nat.leb_le in Hc. apply Nat.leb_le in Hd.
  injection E as <-.
  split; [ exact Hc | ]. split; [ exact Hd | ].
  split; [ | split; reflexivity ].
  intros i z.
  cbn [self after_call publish_comps with_mo_comps with_so_comps with_comps
            with_sludge _sludge _comps].
  rewrite nth_euler_advance. fold mo comps d.
  destruct (Nat.ltb_spec i (length mo)) as [ Hi | Hi ]; [ | reflexivity ].
  destruct (Nat.ltb_spec i (length comps)) as [ _ | Hi' ]; [ | lia ].
  destruct (Nat.ltb_spec i (length d)) as [ _ | Hi' ]; [ | lia ].
  reflexivity.
Qed.

Lemma euler_success_advances_first_components_witness :
  exists st,
    euler_steps scenario_rate scenario_state 1 (qc 1 10) (qc 2 1) = Ok st
    /\ length (_comps (_sludge (self (snd (scenario_euler (qc 2 1)))))) = 2
    /\ dCdt_log (snd (scenario_euler (qc 2 1)))
       = [logged_call (self scenario_world) scenario_state].
Proof.
  destruct (@euler_success_advances_first_components
              Qc unit _ (constant_rate_model scenario_rate)
              scenario_world (snd (scenario_euler (qc 2 1))) 1 (qc 1 10) (qc 2 1))
    as (st & Hst & _ & _ & _ & Hlog & _).
  - vm_compute. reflexivity.
  - exists st. split; [ exact Hst | ]. split; [ reflexivity | exact Hlog ].
Defined.

(** X2.  When the step sizes exist but [_mo_comps] is longer than the
    sludge components or than the rate vector, [_euler] raises
    [IndexError] in the middle of its in-place loop: the sludge components
    reached before the offending index stay advanced, and neither outlet
    vector is refreshed. *)
Theorem euler_index_error_keeps_partial_update
        {R C : Type} `{PyNum R} `{KineticsModel R C}
        (w : world R C) (first_index_part : Z) (f_s f_p : R) (st : steps) :
  let r := self w in
  let comps := _comps (_sludge r) in
  let mo := _mo_comps r in
  let d := rate_of r mo in
  euler_steps d comps first_index_part f_s f_p = Ok st ->
  length comps < length mo \/ length d < length mo ->
  fst (_euler first_index_part f_s f_p w) = Raise IndexError
  /\ _comps (_sludge (self (snd (_euler first_index_part f_s f_p w))))
     = euler_advance comps d (length mo) (_step_sol st)
  /\ _mo_comps (self (snd (_euler first_index_part f_s f_p w))) = mo
  /\ _so_comps (self (snd (_euler first_index_part f_s f_p w))) = _so_comps r.
Proof.
  intros r comps mo d Hst Hshort.
  rewrite _euler_outcome. fold r comps mo d. rewrite Hst. cbv zeta.
  assert (Hm : ((length mo <=? length comps) && (length mo <=? length d))%bool = false).
  { apply andb_false_iff. destruct Hshort as [ Hs | Hs ]; [ left | right ];
      apply Nat.leb_gt; exact Hs. }
  rewrite Hm. repeat split; reflexivity.
Qed.

Lemma euler_index_error_keeps_partial_update_witness :
  fst short_rate_euler = Raise IndexError
  /\ _comps (_sludge (self (snd short_rate_euler))) = [qc 9 1; qc 9 2; qc 1 1]
  /\ _mo_comps (self (snd short_rate_euler)) = long_state
  /\ _so_comps (self (snd short_rate_euler)) = _so_comps (self short_rate_world).
Proof.
  destruct (@euler_index_error_keeps_partial_update
              Qc unit _ (constant_rate_model short_rate) short_rate_world
              1 (qc 1 10) (qc 2 1) short_rate_steps)
    as (Hraise & Hcomps & Hmo & Hso).
  - vm_compute. apply f_equal. apply f_equal4; qc_eq.
  - right. simpl. lia.
  - split; [ exact Hraise | ]. split; [ | split; [ exact Hmo | exact Hso ] ].
    unfold short_rate_euler. rewrite Hcomps. qc_list_eq.
Defined.

(** X3.  When [_runge_kutta_4] raises, for whatever reason, the reactor is
    exactly as it was before the call and nothing has been printed: the
    method assigns to [self] only once all four stages have succeeded. *)
Theorem runge_kutta_4_failure_leaves_reactor_unchanged
        {R C : Type} `{PyNum R} `{KineticsModel R C}
        (w w' : world R C) (first_index_part : Z) (f_s f_p : R) (e : PyError) :
  _runge_kutta_4 first_index_part f_s f_p w = (Raise e, w') ->
  self w' = self w /\ stdout w' = stdout w.
Proof.
  intros E.
  destruct (_runge_kutta_4_cases w first_index_part f_s f_p)
    as [ (e0 & w0 & E0 & Hself & Hout) | (new & w0 & E0 & _) ];
    rewrite E0 in E; [ | discriminate ].
  injection E as _ <-. split; assumption.
Qed.

Lemma runge_kutta_4_failure_leaves_reactor_unchanged_witness :
  self (snd short_rate_runge_kutta_4) = self short_rate_world
  /\ stdout (snd short_rate_runge_kutta_4) = stdout short_rate_world.
Proof.
  apply (@runge_kutta_4_failure_leaves_reactor_unchanged
           Qc unit _ (constant_rate_model short_rate) short_rate_world
           (snd short_rate_runge_kutta_4) 1 (qc 1 10) (qc 2 1) IndexError).
  vm_compute. reflexivity.
Defined.

(** X4.  No call of [integrate], whichever scheme it selects and however
    it ends, changes the number of sludge components. *)
Theorem integrate_preserves_state_length
        {R C : Type} `{PyNum R} `{KineticsModel R C}
        (w : world R C) (first_index_particulate : Z) (method_name : string)
        (f_s f_p : R) :
  length (_comps (_sludge (self (snd (integrate first_index_particulate method_name
                                                f_s f_p w)))))
  = length (_comps (_sludge (self w))).
Proof.
  unfold integrate. rewrite bind_ret_tt.
  destruct (String.eqb method_name "Euler").
  - rewrite _euler_outcome.
    destruct (euler_steps _ _ first_index_particulate f_s f_p) as [ st | e ];
      [ | reflexivity ].
    cbv zeta.
    destruct ((_ <=? _) && (_ <=? _))%bool;
      cbn [snd self after_call publish_comps with_mo_comps with_so_comps with_comps
               with_sludge _sludge _comps];
      apply length_euler_advance.
  - destruct (_runge_kutta_4_cases w first_index_particulate f_s f_p)
      as [ (e0 & w0 & E0 & Hself & _) | (new & w0 & E0 & Hself & _ & Hlen & _) ];
      rewrite E0; cbn [snd]; rewrite Hself; [ reflexivity | ].
    exact Hlen.
Qed.

(** X5.  The particulate fraction [f_p] has no influence on [integrate]:
    under either scheme, two calls that differ only in [f_p] have the same
    outcome and leave the same world. *)
Theorem integrate_ignores_particulate_fraction
        {R C : Type} `{PyNum R} `{KineticsModel R C}
        (w : world R C) (first_index_particulate : Z) (method_name : string)
        (f_s f_p f_p' : R) :
  integrate first_index_particulate method_name f_s f_p w
  = integrate first_index_particulate method_name f_s f_p' w.
Proof.
  unfold integrate. rewrite !bind_ret_tt.
  destruct (String.eqb method_name "Euler"); [ reflexivity | ].
  unfold _runge_kutta_4, bind, get_self, call_dCdt, lift, rk4_steps, rbind.
  cbn [self].
  destruct (uppers_sol _ _ first_index_particulate) as [ us | e ]; [ | reflexivity ].
  destruct (uppers_part _ _ first_index_particulate) as [ up | e ]; [ | reflexivity ].
  destruct (py_min us) as [ ms | e ]; [ | reflexivity ].
  destruct (py_min up) as [ mp | e ]; reflexivity.
Qed.

(** X6.  With a partition boundary of zero or below, neither scheme ever
    integrates: the soluble partition is empty, so the call raises before
    any assignment to the reactor, with [ValueError] from [min] unless the
    particulate loop has already raised. *)
Theorem nonpositive_boundary_never_integrates
        {R C : Type} `{PyNum R} `{KineticsModel R C}
        (w : world R C) (first_index_particulate : Z) (method_name : string)
        (f_s f_p : R) :
  (first_index_particulate <= 0)%Z ->
  let r := self w in
  let run := integrate first_index_particulate method_name f_s f_p w in
  exists e,
    fst run = Raise e
    /\ self (snd run) = r
    /\ (e = ValueError
        \/ uppers_part (rate_of r (_mo_comps r)) (_comps (_sludge r))
                       first_index_particulate = Raise e).
Proof.
  intros Hfip r run. unfold run, integrate. rewrite bind_ret_tt.
  assert (Hsol : forall d comps : list R,
             uppers_sol d comps first_index_particulate = Ok []).
  { intros d comps. unfold uppers_sol, py_range.
    replace (Z.to_nat (first_index_particulate - 0)) with 0 by lia. reflexivity. }
  destruct (String.eqb method_name "Euler").
  - rewrite _euler_outcome. fold r. unfold euler_steps. rewrite Hsol.
    unfold rbind at 1.
    destruct (uppers_part _ _ first_index_particulate) as [ up | e ] eqn:Hup.
    + exists ValueError. repeat split. now left.
    + exists e. repeat split. now right.
  - unfold _runge_kutta_4, bind, get_self, call_dCdt, lift, rk4_steps.
    cbn [self]. fold r. rewrite Hsol. unfold rbind at 1.
    fold (rate_of r (_mo_comps r)).
    destruct (uppers_part _ _ first_index_particulate) as [ up | e ] eqn:Hup.
    + exists ValueError. repeat split. now left.
    + exists e. repeat split. now right.
Qed.

Lemma nonpositive_boundary_never_integrates_witness :
  exists e,
    fst (@integrate Qc unit _ (constant_rate_model scenario_rate) 0 "RK4"
                    (qc 1 10) (qc 2 1) scenario_world) = Raise e
    /\ self (snd (@integrate Qc unit _ (constant_rate_model scenario_rate) 0 "RK4"
                             (qc 1 10) (qc 2 1) scenario_world))
       = self scenario_world
    /\ (e = ValueError
        \/ uppers_part scenario_rate scenario_state 0 = Raise e).
Proof.
  apply (@nonpositive_boundary_never_integrates
           Qc unit _ (constant_rate_model scenario_rate) scenario_world
           0 "RK4" (qc 1 10) (qc 2 1)).
  lia.
Defined.

(** ** Partitions without a candidate bound, and boundaries out of range *)

Lemma candidate_bounds_without_rates (rate comps : list Qc) (partition : list nat) :
  (forall i, In i partition -> nth i rate 0%Qc = 0%Qc) ->
  candidate_bounds rate comps partition = [].
Proof.
  intros Hzero. unfold candidate_bounds.
  replace (filter (fun i => py_nonzero (nth i rate 0%Qc)) partition) with (@nil nat);
    [ reflexivity | ].
  symmetry. induction partition as [ | i rest IH ]; [ reflexivity | ].
  cbn [filter]. rewrite (Hzero i (or_introl eq_refl)).
  apply IH. intros j Hj. apply Hzero. now right.
Qed.

Lemma py_getitem_nat_cases {A : Type} (l : list A) (i : nat) :
  (exists x, py_getitem l (Z.of_nat i) = Ok x)
  \/ py_getitem l (Z.of_nat i) = Raise IndexError.
Proof.
  destruct l as [ | a l ].
  - right. apply py_getitem_beyond. simpl. lia.
  - destruct (Nat.lt_ge_cases i (length (a :: l))) as [ Hi | Hi ].
    + left. exists (nth i (a :: l) a). now apply py_getitem_nat.
    + right. now apply py_getitem_beyond.
Qed.

Lemma uppers_loop_beyond (rate comps : list Qc) :
  forall (partition : list nat) (acc : list Qc),
    (exists i, In i partition /\ length rate <= i) ->
    uppers_loop rate comps (map Z.of_nat partition) acc = Raise IndexError.
Proof.
  induction partition as [ | i0 rest IH ]; intros acc (i & Hin & Hi).
  - destruct Hin.
  - cbn [map uppers_loop]. unfold rbind at 1.
    destruct (Nat.lt_ge_cases i0 (length rate)) as [ Hi0 | Hi0 ].
    + assert (Hrest : exists j, In j rest /\ length rate <= j).
      { destruct Hin as [ -> | Hin ]; [ lia | now exists i ]. }
      rewrite (py_getitem_nat rate 0%Qc Hi0).
      destruct (py_nonzero (nth i0 rate 0%Qc)) eqn:Hnz; [ | now apply IH ].
      unfold rbind at 1.
      destruct (py_getitem_nat_cases comps i0) as [ [ c Hc ] | Hc ]; rewrite Hc;
        [ | reflexivity ].
      unfold rbind at 1, py_truediv.
      cbn [num_eq num_of_Z num_abs num_div PyNum_Qc].
      change (Q2Qc (inject_Z 0)) with 0%Qc.
      rewrite (Qc_nonzero_abs _ Hnz). now apply IH.
    + now rewrite py_getitem_beyond.
Qed.

Lemma min_of_empty_partition {A : Type} (us up : list Qc) (k : Qc -> Qc -> result A) :
  us = [] \/ up = [] ->
  rbind (Ok us) (fun us' =>
    rbind (Ok up) (fun up' =>
      rbind (py_min us') (fun ms => rbind (py_min up') (fun mp => k ms mp))))
  = Raise ValueError.
Proof.
  intros Hnil. destruct us as [ | x xs ]; [ reflexivity | ].
  destruct Hnil as [ Hnil | -> ]; [ discriminate | reflexivity ].
Qed.

(** X7.  If either partition has no component with a nonzero rate (so also
    when the boundary is 0 or the length of the vector), both schemes
    raise [ValueError] after their first rate evaluation and leave the
    reactor as it was, whatever the rates of the other partition. *)
Theorem empty_partition_raises_ValueError
        {C : Type} `{KineticsModel Qc C}
        (w : world Qc C) (first_index_particulate : Z) (method_name : string)
        (f_s f_p : Qc) :
  let r := self w in
  let d := rate_of r (_mo_comps r) in
  length d = length (_comps (_sludge r)) ->
  (0 <= first_index_particulate <= Z.of_nat (length d))%Z ->
  (forall i, i < Z.to_nat first_index_particulate -> nth i d 0%Qc = 0%Qc)
  \/ (forall i, Z.to_nat first_index_particulate <= i -> nth i d 0%Qc = 0%Qc) ->
  integrate first_index_particulate method_name f_s f_p w
  = (Raise ValueError, after_call r (_mo_comps r) w).
Proof.
  intros r d Hlen Hfip Hempty.
  assert (Hsteps :
            exists us up,
              uppers_sol d (_comps (_sludge r)) first_index_particulate = Ok us
              /\ uppers_part d (_comps (_sludge r)) first_index_particulate = Ok up
              /\ (us = [] \/ up = [])).
  { rewrite (@uppers_sol_candidates d _ first_index_particulate Hlen) by lia.
    rewrite (@uppers_part_candidates d _ first_index_particulate Hlen) by lia.
    do 2 eexists. split; [ reflexivity | ]. split; [ reflexivity | ].
    destruct Hempty as [ Hz | Hz ]; [ left | right ];
      apply candidate_bounds_without_rates; intros i Hi; apply in_seq in Hi;
      apply Hz; lia. }
  destruct Hsteps as (us & up & Hus & Hup & Hnil).
  unfold integrate. rewrite bind_ret_tt.
  destruct (String.eqb method_name "Euler").
  - rewrite _euler_outcome. fold r d. unfold euler_steps. rewrite Hus, Hup.
    now rewrite min_of_empty_partition.
  - unfold _runge_kutta_4, bind, get_self, call_dCdt, lift, rk4_steps.
    cbn [self]. fold r. fold (rate_of r (_mo_comps r)). fold d.
    rewrite Hus, Hup. now rewrite min_of_empty_partition.
Qed.

Lemma empty_partition_raises_ValueError_witness :
  @integrate Qc unit _ (constant_rate_model scenario_rate) 2 "Euler"
             (qc 1 10) (qc 2 1) scenario_world
  = (Raise ValueError,
     after_call (self scenario_world) scenario_state scenario_world).
Proof.
  apply (@empty_partition_raises_ValueError
           unit (constant_rate_model scenario_rate) scenario_world
           2 "Euler" (qc 1 10) (qc 2 1)).
  - reflexivity.
  - simpl. lia.
  - right. intros i Hi. apply nth_overflow. simpl in Hi |- *. lia.
Defined.

(** X8.  With a partition boundary beyond the length of the rate vector,
    both schemes raise [IndexError] after their first rate evaluation and
    leave the reactor as it was. *)
Theorem boundary_beyond_vector_raises_IndexError
        {C : Type} `{KineticsModel Qc C}
        (w : world Qc C) (first_index_particulate : Z) (method_name : string)
        (f_s f_p : Qc) :
  let r := self w in
  (Z.of_nat (length (rate_of r (_mo_comps r))) < first_index_particulate)%Z ->
  integrate first_index_particulate method_name f_s f_p w
  = (Raise IndexError, after_call r (_mo_comps r) w).
Proof.
  intros r Hfip.
  assert (Hus : uppers_sol (rate_of r (_mo_comps r)) (_comps (_sludge r))
                           first_index_particulate = Raise IndexError).
  { unfold uppers_sol. rewrite py_range_from_zero.
    apply uppers_loop_beyond.
    exists (length (rate_of r (_mo_comps r))). split; [ | lia ].
    apply in_seq. lia. }
  unfold integrate. rewrite bind_ret_tt.
  destruct (String.eqb method_name "Euler").
  - rewrite _euler_outcome. fold r. unfold euler_steps. now rewrite Hus.
  - unfold _runge_kutta_4, bind, get_self, call_dCdt, lift, rk4_steps.
    cbn [self]. fold r. fold (rate_of r (_mo_comps r)). now rewrite Hus.
Qed.

Lemma boundary_beyond_vector_raises_IndexError_witness :
  @integrate Qc unit _ (constant_rate_model scenario_rate) 7 "Euler"
             (qc 1 20) (qc 2 1) scenario_world
  = (Raise IndexError,
     after_call (self scenario_world) scenario_state scenario_world).
Proof.
  apply (@boundary_beyond_vector_raises_IndexError
           unit (constant_rate_model scenario_rate) scenario_world
           7 "Euler" (qc 1 20) (qc 2 1)).
  simpl. lia.
Defined.

(** ** Reading back the active volume *)

(** X9.  [set_active_vol(v)] followed by [get_active_vol()] returns [v]
    when [v > 0] and the volume the reactor had before otherwise. *)
Theorem set_then_get_active_vol {C : Type} (v : Qc) (w : world Qc C) :
  ((0 < v)%Qc ->
   fst (bind (set_active_vol v) (fun _ => get_active_vol) w) = Ok v)
  /\ (~ (0 < v)%Qc ->
      fst (bind (set_active_vol v) (fun _ => get_active_vol) w)
      = Ok (_active_vol (self w))).
Proof.
  unfold set_active_vol, get_active_vol. cbn [num_lt num_of_Z PyNum_Qc].
  change (Q2Qc (inject_Z 0)) with 0%Qc.
  split; intros Hv.
  - apply Qc_ltb_lt in Hv. rewrite Hv. reflexivity.
  - apply Qc_ltb_nlt in Hv. rewrite Hv. reflexivity.
Qed.

Lemma set_then_get_active_vol_witness :
  fst (bind (set_active_vol (qc 380 1)) (fun _ => get_active_vol) scenario_world)
  = Ok (qc 380 1)
  /\ fst (bind (set_active_vol (qc (-5) 1)) (fun _ => get_active_vol) scenario_world)
     = Ok (_active_vol (self scenario_world)).
Proof.
  destruct (@set_then_get_active_vol unit (qc 380 1) scenario_world) as [ Hpos _ ].
  destruct (@set_then_get_active_vol unit (qc (-5) 1) scenario_world) as [ _ Hneg ].
  split; [ apply Hpos; reflexivity | apply Hneg; intros Hlt; discriminate Hlt ].
Defined.

(** ** The discharge cycle as a whole *)

Lemma euler_steps_beyond (d comps : list Qc) (first_index_part : Z) (f_s f_p : Qc) :
  (Z.of_nat (length d) < first_index_part)%Z ->
  euler_steps d comps first_index_part f_s f_p = Raise IndexError.
Proof.
  intros Hfip. unfold euler_steps, uppers_sol. rewrite py_range_from_zero.
  rewrite uppers_loop_beyond; [ reflexivity | ].
  exists (length d). split; [ apply in_seq | ]; lia.
Qed.

Lemma euler_steps_without_candidates (d comps : list Qc) (first_index_part : Z)
      (f_s f_p : Qc) :
  length d = length comps ->
  (0 <= first_index_part <= Z.of_nat (length d))%Z ->
  (forall i, i < Z.to_nat first_index_part -> nth i d 0%Qc = 0%Qc)
  \/ (forall i, Z.to_nat first_index_part <= i -> nth i d 0%Qc = 0%Qc) ->
  euler_steps d comps first_index_part f_s f_p = Raise ValueError.
Proof.
  intros Hlen Hfip Hempty. unfold euler_steps.
  rewrite (@uppers_sol_candidates d comps first_index_part Hlen) by lia.
  rewrite (@uppers_part_candidates d comps first_index_part Hlen) by lia.
  apply min_of_empty_partition.
  destruct Hempty as [ Hz | Hz ]; [ left | right ];
    apply candidate_bounds_without_rates; intros i Hi; apply in_seq in Hi;
    apply Hz; lia.
Qed.

Section DischargeCycle.
Context {R C : Type} `{PyNum R} `{KineticsModel R C}.
Variables _branch_flow_helper _discharge_main_outlet : M R C unit.
Local Open Scope py_scope.

(** A cycle whose step sizes fail stops there: the snapshots are taken,
    the rate has been evaluated once, and the hand-over is not reached. *)
Lemma discharge_when_steps_fail (w w1 : world R C) (e : PyError) :
  _branch_flow_helper w = (Ok tt, w1) ->
  euler_steps (rate_of (self w1) (_mo_comps (self w1))) (_comps (_sludge (self w1)))
              7 (num_div (num_of_Z 5) (num_of_Z 100)) (num_of_Z 2) = Raise e ->
  discharge _branch_flow_helper _discharge_main_outlet w
  = (Raise e, after_call (take_snapshots (self w1)) (_mo_comps (self w1)) w1).
Proof.
  intros Hbranch Hst. unfold discharge.
  unfold bind at 1. rewrite Hbranch.
  unfold bind at 1, modify_self at 1.
  unfold bind at 1, modify_self at 1.
  unfold bind at 1. unfold integrate. rewrite bind_ret_tt.
  cbn [String.eqb Ascii.eqb Bool.eqb]. rewrite _euler_outcome.
  cbn [self with_prev_mo_comps with_prev_so_comps _mo_comps _sludge].
  change (rate_of (with_prev_so_comps (_mo_comps (self w1))
                     (with_prev_mo_comps (_mo_comps (self w1)) (self w1)))
                  (_mo_comps (self w1)))
    with (rate_of (self w1) (_mo_comps (self w1))).
  rewrite Hst. reflexivity.
Qed.

(** A cycle whose Euler step goes through. *)
Lemma discharge_when_euler_returns (w w1 : world R C) (st : steps) :
  _branch_flow_helper w = (Ok tt, w1) ->
  let r := self w1 in
  let comps := _comps (_sludge r) in
  let mo := _mo_comps r in
  let d := rate_of r mo in
  euler_steps d comps 7 (num_div (num_of_Z 5) (num_of_Z 100)) (num_of_Z 2) = Ok st ->
  length d = length comps ->
  length mo = length comps ->
  discharge _branch_flow_helper _discharge_main_outlet w
  = _discharge_main_outlet
      (after_call
         (publish_comps
            (with_comps (zip_with (fun c di => c + di * _step_sol st) comps d)
                        (take_snapshots r)))
         mo w1).
Proof.
  intros Hbranch r comps mo d Hst Hd Hmo. unfold discharge.
  unfold bind at 1. rewrite Hbranch.
  unfold bind at 1, modify_self at 1.
  unfold bind at 1, modify_self at 1.
  unfold bind at 1. unfold integrate. rewrite bind_ret_tt.
  cbn [String.eqb Ascii.eqb Bool.eqb].
  rewrite (@_euler_run R C _ _ _ 7 _ _ st); [ | exact Hst | exact Hd | exact Hmo ].
  unfold bind at 1, modify_self at 1.
  rewrite bind_ret_tt. reflexivity.
Qed.
End DischargeCycle.

(** X12.  A discharge cycle whose flow-splitting step returns and whose
    Euler step (boundary 7, soluble fraction 0.05) has step sizes and
    vectors of one length is: that one Euler step on the reactor with
    both snapshots set to the pre-step main outlet, handed to
    [_discharge_main_outlet] with the three component vectors equal, one
    rate evaluation logged and nothing printed. *)
Theorem discharge_is_one_euler_step
        {R C : Type} `{PyNum R} `{KineticsModel R C}
        (_branch_flow_helper _discharge_main_outlet : M R C unit)
        (w w1 : world R C) (st : steps) :
  _branch_flow_helper w = (Ok tt, w1) ->
  let r := self w1 in
  let comps := _comps (_sludge r) in
  let mo := _mo_comps r in
  let d := rate_of r mo in
  euler_steps d comps 7 (num_div (num_of_Z 5) (num_of_Z 100)) (num_of_Z 2) = Ok st ->
  length d = length comps ->
  length mo = length comps ->
  exists w3,
    discharge _branch_flow_helper _discharge_main_outlet w = _discharge_main_outlet w3
    /\ _comps (_sludge (self w3))
       = zip_with (fun c di => num_add c (num_mul di (_step_sol st))) comps d
    /\ _mo_comps (self w3) = _comps (_sludge (self w3))
    /\ _so_comps (self w3) = _comps (_sludge (self w3))
    /\ _prev_mo_comps (self w3) = mo
    /\ _prev_so_comps (self w3) = mo
    /\ dCdt_log w3 = dCdt_log w1 ++ [logged_call r mo]
    /\ stdout w3 = stdout w1.
Proof.
  intros Hbranch r comps mo d Hst Hd Hmo.
  eexists. split.
  - exact (@discharge_when_euler_returns R C _ _ _branch_flow_helper
             _discharge_main_outlet w w1 st Hbranch Hst Hd Hmo).
  - repeat split; reflexivity.
Qed.

Lemma cycle_euler_steps :
  euler_steps cycle_rate cycle_state 7
              (num_div (num_of_Z 5) (num_of_Z 100)) (num_of_Z 2)
  = Ok cycle_steps.
Proof. vm_compute. apply f_equal. apply f_equal4; qc_eq. Qed.

Lemma discharge_is_one_euler_step_witness :
  exists w3,
    cycle_discharge = ret tt w3
    /\ _comps (_sludge (self w3)) = map (fun _ => qc 19 2) (seq 0 13)
    /\ _prev_so_comps (self w3) = cycle_state.
Proof.
  destruct (@discharge_is_one_euler_step
              Qc unit _ (constant_rate_model cycle_rate) (ret tt) (ret tt)
              cycle_world cycle_world cycle_steps eq_refl cycle_euler_steps
              eq_refl eq_refl)
    as (w3 & Hrun & Hcomps & _ & _ & _ & Hprev & _).
  exists w3. split; [ exact Hrun | ]. split; [ | exact Hprev ].
  rewrite Hcomps. qc_list_eq.
Defined.

(** X13.  A discharge cycle of a reactor at steady state (every rate zero,
    at least seven components) does not leave the reactor at rest: it
    raises [ValueError] after overwriting both snapshots, with the sludge
    components and both outlets untouched and the hand-over to the
    downstream unit not reached. *)
Theorem discharge_at_steady_state_raises
        {C : Type} `{KineticsModel Qc C}
        (_branch_flow_helper _discharge_main_outlet : M Qc C unit)
        (w w1 : world Qc C) :
  _branch_flow_helper w = (Ok tt, w1) ->
  let r := self w1 in
  let d := rate_of r (_mo_comps r) in
  Forall (fun x => x = 0%Qc) d ->
  length d = length (_comps (_sludge r)) ->
  7 <= length d ->
  discharge _branch_flow_helper _discharge_main_outlet w
  = (Raise ValueError, after_call (take_snapshots r) (_mo_comps r) w1).
Proof.
  intros Hbranch r d Hzero Hlen Hseven.
  apply discharge_when_steps_fail; [ exact Hbranch | ].
  fold r d.
  apply euler_steps_without_candidates; [ exact Hlen | lia | ].
  left. intros i _.
  destruct (Nat.lt_ge_cases i (length d)) as [ Hi | Hi ].
  - rewrite Forall_forall in Hzero. apply Hzero, nth_In, Hi.
  - now apply nth_overflow.
Qed.

Lemma discharge_at_steady_state_raises_witness :
  steady_cycle_discharge
  = (Raise ValueError,
     after_call (take_snapshots (self cycle_world)) cycle_state cycle_world).
Proof.
  apply (@discharge_at_steady_state_raises
           unit (constant_rate_model steady_cycle_rate) (ret tt) (ret tt)
           cycle_world cycle_world eq_refl).
  - repeat constructor.
  - reflexivity.
  - simpl. lia.
Defined.

(** X14.  [discharge] passes the boundary 7 whatever the model: on a
    reactor whose rate vector has fewer than seven components the cycle
    raises [IndexError], and with exactly seven (and as many sludge
    components) it raises [ValueError], the particulate partition being
    empty; either way after the snapshots and before any integration. *)
Theorem discharge_needs_more_than_seven_components
        {C : Type} `{KineticsModel Qc C}
        (_branch_flow_helper _discharge_main_outlet : M Qc C unit)
        (w w1 : world Qc C) :
  _branch_flow_helper w = (Ok tt, w1) ->
  let r := self w1 in
  let d := rate_of r (_mo_comps r) in
  length d <= 7 ->
  length d = length (_comps (_sludge r)) ->
  discharge _branch_flow_helper _discharge_main_outlet w
  = (Raise (if length d <? 7 then IndexError else ValueError),
     after_call (take_snapshots r) (_mo_comps r) w1).
Proof.
  intros Hbranch r d Hshort Hlen.
  apply discharge_when_steps_fail; [ exact Hbranch | ].
  fold r d.
  destruct (Nat.ltb_spec (length d) 7) as [ Hlt | Hge ].
  - apply euler_steps_beyond. lia.
  - apply euler_steps_without_candidates; [ exact Hlen | lia | ].
    right. intros i Hi. apply nth_overflow. simpl in Hi. lia.
Qed.

Lemma discharge_needs_more_than_seven_components_witness :
  scenario_discharge
  = (Raise IndexError,
     after_call (take_snapshots (self scenario_world)) scenario_state scenario_world).
Proof.
  apply (@discharge_needs_more_than_seven_components
           unit (constant_rate_model scenario_rate) (ret tt) (ret tt)
           scenario_world scenario_world eq_refl).
  - simpl. lia.
  - reflexivity.
Defined.

(** ** The constructor *)

Lemma py_str_nat_injective (n m : nat) : py_str_nat n = py_str_nat m -> n = m.
Proof.
  unfold py_str_nat. intros E.
  apply (f_equal DecimalString.NilEmpty.uint_of_string) in E.
  rewrite !DecimalString.NilEmpty.usu in E. injection E as E.
  apply (f_equal Nat.of_uint) in E.
  now rewrite !DecimalNat.Unsigned.of_to in E.
Qed.

Lemma string_append_cancel (p a b : string) :
  (p ++ a)%string = (p ++ b)%string -> a = b.
Proof.
  induction p as [ | c p IH ]; simpl; intros E; [ exact E | ].
  injection E as E. now apply IH.
Qed.

(** X15.  The constructor sets the surface area to [ActiveVol / swd]; a
    later [set_active_vol(v)] that is accepted changes the volume and
    nothing else: the side water depth and the stored area stay as
    constructed, so the area is still [ActiveVol / swd] and is not
    recomputed from the new volume.  This holds whatever the number
    type. *)
Theorem active_vol_change_does_not_recompute_area
        {R C : Type} `{PyNum R}
        (class_id : nat) (pipe_total_inflow : R) (pipe_so_comps : list R)
        (ASM_1 : R -> R -> asm_1 R C) (_NUM_ASM1_COMPONENTS : nat)
        (ActiveVol swd Temperature DO v : R) :
  num_eq swd (num_of_Z 0) = false -> num_lt (num_of_Z 0) v = true ->
  exists r w',
    fst (__init__ class_id pipe_total_inflow pipe_so_comps ASM_1 _NUM_ASM1_COMPONENTS
                  ActiveVol swd Temperature DO) = Ok r
    /\ _area r = num_div ActiveVol swd
    /\ set_active_vol v (world_of r) = (Ok tt, w')
    /\ _active_vol (self w') = v
    /\ _swd (self w') = swd
    /\ _area (self w') = num_div ActiveVol swd.
Proof.
  intros Hswd Hv.
  unfold __init__, py_truediv. rewrite Hswd.
  do 2 eexists. split; [ reflexivity | ]. split; [ reflexivity | ].
  unfold set_active_vol. rewrite Hv.
  split; [ reflexivity | ].
  repeat split.
Qed.

Lemma active_vol_change_does_not_recompute_area_witness :
  exists r w',
    fst (__init__ 0 (qc 0 1) [] (fun _ _ => {| _comps := []; _model := tt |}) 13
                  (qc 38000 1) (qc 7 2) (qc 20 1) (qc 2 1)) = Ok r
    /\ _area r = (qc 38000 1 / qc 7 2)%Qc
    /\ set_active_vol (qc 380 1) (world_of r) = (Ok tt, w')
    /\ _active_vol (self w') = qc 380 1
    /\ _swd (self w') = qc 7 2
    /\ _area (self w') = (qc 38000 1 / qc 7 2)%Qc.
Proof.
  exact (@active_vol_change_does_not_recompute_area
           Qc unit _ 0 (qc 0 1) [] (fun _ _ => {| _comps := []; _model := tt |}) 13
           (qc 38000 1) (qc 7 2) (qc 20 1) (qc 2 1) (qc 380 1) eq_refl eq_refl).
Defined.

(** X16.  Every construction advances the class counter by one, also one
    that fails on [swd == 0] with [ZeroDivisionError]; and two reactors
    constructed one after the other bear the names [ASMReactor_<n+1>] and
    [ASMReactor_<n+2>], which differ. *)
Theorem successive_reactors_get_distinct_names
        {R C : Type} `{PyNum R} (class_id : nat)
        (inflow1 inflow2 : R) (so1 so2 : list R)
        (ASM_1 : R -> R -> asm_1 R C) (_NUM_ASM1_COMPONENTS : nat)
        (ActiveVol1 swd1 Temperature1 DO1 ActiveVol2 swd2 Temperature2 DO2 : R) :
  let first := __init__ class_id inflow1 so1 ASM_1 _NUM_ASM1_COMPONENTS
                        ActiveVol1 swd1 Temperature1 DO1 in
  let second := __init__ (snd first) inflow2 so2 ASM_1 _NUM_ASM1_COMPONENTS
                         ActiveVol2 swd2 Temperature2 DO2 in
  snd first = S class_id
  /\ snd second = S (S class_id)
  /\ (num_eq swd1 (num_of_Z 0) = true -> fst first = Raise ZeroDivisionError)
  /\ forall r1 r2,
      fst first = Ok r1 -> fst second = Ok r2 ->
      __name__ r1 = ("ASMReactor_" ++ py_str_nat (S class_id))%string
      /\ __name__ r2 = ("ASMReactor_" ++ py_str_nat (S (S class_id)))%string
      /\ __name__ r1 <> __name__ r2.
Proof.
  intros first second.
  assert (H1 : snd first = S class_id).
  { unfold first, __init__. destruct (py_truediv ActiveVol1 swd1); reflexivity. }
  assert (H2 : snd second = S (S class_id)).
  { unfold second, __init__. rewrite H1.
    destruct (py_truediv ActiveVol2 swd2); reflexivity. }
  split; [ exact H1 | ]. split; [ exact H2 | ]. split.
  - intros Hz. unfold first, __init__, py_truediv. now rewrite Hz.
  - intros r1 r2 E1 E2.
    unfold second in E2. rewrite H1 in E2.
    unfold first, __init__ in E1. unfold __init__ in E2.
    destruct (py_truediv ActiveVol1 swd1); [ | discriminate ].
    destruct (py_truediv ActiveVol2 swd2); [ | discriminate ].
    injection E1 as <-. injection E2 as <-.
    cbn [__name__]. split; [ reflexivity | ]. split; [ reflexivity | ].
    intros E. apply (@string_append_cancel "ASMReactor_") in E.
    apply py_str_nat_injective in E. lia.
Qed.

Lemma successive_reactors_get_distinct_names_witness :
  exists r1 r2,
    fst (__init__ 0 (qc 0 1) [] (fun _ _ => {| _comps := []; _model := tt |}) 13
                  (qc 38000 1) (qc 7 2) (qc 20 1) (qc 2 1)) = Ok r1
    /\ fst (__init__ 1 (qc 0 1) [] (fun _ _ => {| _comps := []; _model := tt |}) 13
                     (qc 380 1) (qc 3 1) (qc 15 1) (qc 1 1)) = Ok r2
    /\ __name__ r1 = "ASMReactor_1"%string
    /\ __name__ r2 = "ASMReactor_2"%string
    /\ __name__ r1 <> __name__ r2.
Proof.
  destruct (@successive_reactors_get_distinct_names
              Qc unit _ 0 (qc 0 1) (qc 0 1) [] []
              (fun _ _ => {| _comps := []; _model := tt |}) 13
              (qc 38000 1) (qc 7 2) (qc 20 1) (qc 2 1)
              (qc 380 1) (qc 3 1) (qc 15 1) (qc 1 1))
    as (_ & _ & _ & Hnames).
  do 2 eexists. split; [ reflexivity | ]. split; [ reflexivity | ].
  apply Hnames; reflexivity.
Defined.

(** ** The step-size rule, whatever the number type *)

Lemma py_getitem_nat_inv {A : Type} (l : list A) (i : nat) (x d : A) :
  py_getitem l (Z.of_nat i) = Ok x -> i < length l /\ x = nth i l d.
Proof.
  intros E. destruct (Nat.lt_ge_cases i (length l)) as [ Hi | Hi ].
  - split; [ exact Hi | ]. rewrite (py_getitem_nat l d Hi) in E. now injection E.
  - rewrite (py_getitem_beyond l Hi) in E. discriminate E.
Qed.

Section StepRule.
Context {R : Type} `{PyNum R}.
Local Open Scope py_scope.

(** A loop over a partition that completes has collected exactly the
    candidate bounds of that partition, in order. *)
Lemma uppers_loop_inv (rate comps : list R) :
  forall (partition : list nat) (acc us : list R),
    uppers_loop rate comps (map Z.of_nat partition) acc = Ok us ->
    us = (acc ++ bounds_over rate comps partition)%list.
Proof.
  induction partition as [ | i rest IH ]; intros acc us E.
  - simpl in E. injection E as <-. unfold bounds_over. simpl. now rewrite app_nil_r.
  - cbn [map uppers_loop] in E. unfold rbind at 1 in E.
    destruct (py_getitem rate (Z.of_nat i)) as [ d | ] eqn:Ed; [ | discriminate ].
    apply (@py_getitem_nat_inv R rate i d (num_of_Z 0)) in Ed. destruct Ed as [ _ -> ].
    unfold bounds_over. cbn [filter].
    destruct (py_nonzero (nth i rate (num_of_Z 0))) eqn:Hnz.
    + unfold rbind at 1 in E.
      destruct (py_getitem comps (Z.of_nat i)) as [ c | ] eqn:Ec; [ | discriminate ].
      apply (@py_getitem_nat_inv R comps i c (num_of_Z 0)) in Ec. destruct Ec as [ _ -> ].
      unfold rbind at 1, py_truediv in E.
      destruct (num_eq (num_abs (nth i rate (num_of_Z 0))) (num_of_Z 0));
        [ discriminate | ].
      apply IH in E. rewrite E. cbn [map]. unfold bounds_over.
      now rewrite <- app_assoc.
    + apply IH in E. exact E.
Qed.

Lemma uppers_sol_inv (rate comps : list R) (first_index_part : Z) (us : list R) :
  uppers_sol rate comps first_index_part = Ok us ->
  us = soluble_bounds rate comps first_index_part.
Proof.
  unfold uppers_sol. rewrite py_range_from_zero. intros E.
  apply uppers_loop_inv in E. exact E.
Qed.

(** Where [<] is irreflexive and transitive, as it is on the rationals and
    on binary64 numbers (NaN included), [min] returns an element of the
    list that no element of the list is below. *)
Section LeastElement.
Hypothesis lt_irreflexive : forall a : R, num_lt a a = false.
Hypothesis lt_transitive :
  forall a b c : R, num_lt a b = true -> num_lt b c = true -> num_lt a c = true.

Lemma lt_asymmetric (a b : R) : num_lt a b = true -> num_lt b a = false.
Proof.
  intros Hab. destruct (num_lt b a) eqn:Hba; [ | reflexivity ].
  pose proof (lt_transitive _ _ _ Hab Hba) as Haa.
  rewrite lt_irreflexive in Haa. discriminate Haa.
Qed.

Lemma fold_min_least (xs : list R) :
  forall x : R,
    let m := fold_left (fun best y => if num_lt y best then y else best) xs x in
    (m = x \/ In m xs) /\ (m = x \/ num_lt m x = true)
    /\ forall y, In y xs -> num_lt y m = false.
Proof.
  induction xs as [ | z xs IH ]; intros x; cbn [fold_left].
  - split; [ now left | ]. split; [ now left | intros y [] ].
  - destruct (num_lt z x) eqn:E.
    + destruct (IH z) as (Hin & Hlt & Hall).
      split; [ right; destruct Hin as [ Hin | Hin ]; [ left; now rewrite Hin | now right ] | ].
      split.
      * right. destruct Hlt as [ Hlt | Hlt ];
          [ now rewrite Hlt | exact (lt_transitive _ _ _ Hlt E) ].
      * intros y [ <- | Hy ]; [ | now apply Hall ].
        destruct Hlt as [ Hlt | Hlt ];
          [ rewrite Hlt; apply lt_irreflexive | now apply lt_asymmetric ].
    + destruct (IH x) as (Hin & Hlt & Hall).
      split; [ destruct Hin as [ Hin | Hin ]; [ now left | right; now right ] | ].
      split; [ exact Hlt | ].
      intros y [ <- | Hy ]; [ | now apply Hall ].
      destruct Hlt as [ Hlt | Hlt ]; [ now rewrite Hlt | ].
      match goal with
      | |- num_lt ?a ?b = false => destruct (num_lt a b) eqn:Hym; [ | reflexivity ]
      end.
      pose proof (lt_transitive _ _ _ Hym Hlt) as Hzx. congruence.
Qed.

Lemma py_min_least (l : list R) (m : R) :
  py_min l = Ok m -> In m l /\ forall y, In y l -> num_lt y m = false.
Proof.
  destruct l as [ | x xs ]; [ discriminate | ].
  unfold py_min. intros E. injection E as <-.
  destruct (fold_min_least xs x) as (Hin & Hlt & Hall).
  split.
  - destruct Hin as [ Hin | Hin ]; [ left; now rewrite Hin | now right ].
  - intros y [ <- | Hy ]; [ | now apply Hall ].
    destruct Hlt as [ Hlt | Hlt ];
      [ rewrite Hlt; apply lt_irreflexive | now apply lt_asymmetric ].
Qed.
End LeastElement.

Lemma length_rk4_next (comps k1 k2 k3 k4 : list R) (h : R) :
  length k1 = length comps -> length k2 = length comps ->
  length k3 = length comps -> length k4 = length comps ->
  length (rk4_next comps k1 k2 k3 k4 h) = length comps.
Proof.
  intros H1 H2 H3 H4. unfold rk4_next.
  assert (L1 : length (zip_with num_add k1 (map (num_mul (num_of_Z 2)) k2))
               = length comps)
    by (rewrite length_zip_with; rewrite ?length_map; congruence).
  assert (L2 : length (zip_with num_add
                         (zip_with num_add k1 (map (num_mul (num_of_Z 2)) k2))
                         (map (num_mul (num_of_Z 2)) k3)) = length comps)
    by (rewrite length_zip_with; rewrite ?length_map; congruence).
  assert (L3 : length (zip_with num_add
                         (zip_with num_add
                            (zip_with num_add k1 (map (num_mul (num_of_Z 2)) k2))
                            (map (num_mul (num_of_Z 2)) k3)) k4) = length comps)
    by (rewrite length_zip_with; congruence).
  rewrite length_zip_with; congruence.
Qed.

Lemma nth_rk4_next (comps k1 k2 k3 k4 : list R) (h z : R) (i : nat) :
  length k1 = length comps -> length k2 = length comps ->
  length k3 = length comps -> length k4 = length comps ->
  i < length comps ->
  nth i (rk4_next comps k1 k2 k3 k4 h) z
  = nth i comps z
    + num_div (nth i k1 z + num_of_Z 2 * nth i k2 z + num_of_Z 2 * nth i k3 z
               + nth i k4 z)
              (num_of_Z 6) * h.
Proof.
  intros H1 H2 H3 H4 Hi. unfold rk4_next.
  assert (L1 : length (zip_with num_add k1 (map (num_mul (num_of_Z 2)) k2))
               = length comps)
    by (rewrite length_zip_with; rewrite ?length_map; congruence).
  assert (L2 : length (zip_with num_add
                         (zip_with num_add k1 (map (num_mul (num_of_Z 2)) k2))
                         (map (num_mul (num_of_Z 2)) k3)) = length comps)
    by (rewrite length_zip_with; rewrite ?length_map; congruence).
  assert (L3 : length (zip_with num_add
                         (zip_with num_add
                            (zip_with num_add k1 (map (num_mul (num_of_Z 2)) k2))
                            (map (num_mul (num_of_Z 2)) k3)) k4) = length comps)
    by (rewrite length_zip_with; congruence).
  rewrite (nth_zip_with _ _ _ z z z) by lia.
  rewrite (nth_zip_with _ _ _ z z z) by lia.
  rewrite (nth_zip_with _ _ _ z z z) by (rewrite ?length_map; lia).
  rewrite (nth_zip_with _ _ _ z z z) by (rewrite ?length_map; lia).
  rewrite (nth_map_in _ k2 z z) by lia.
  rewrite (nth_map_in _ k3 z z) by lia.
  reflexivity.
Qed.
End StepRule.

Lemma Qc_ltb_irreflexive (a : Qc) : Qc_ltb a a = false.
Proof. apply Qc_ltb_nlt. intros Hlt. now apply Qclt_not_eq in Hlt. Qed.

Lemma Qc_ltb_transitive (a b c : Qc) :
  Qc_ltb a b = true -> Qc_ltb b c = true -> Qc_ltb a c = true.
Proof.
  rewrite !Qc_ltb_lt. apply Qclt_trans.
Qed.

(** The same laws in binary64, from the IEEE comparison: NaN is below
    nothing and nothing is below NaN. *)
Lemma SFltb_irreflexive (a : spec_float) : SFltb a a = false.
Proof.
  unfold SFltb, SFcompare.
  destruct a as [ s | s | | s m e ]; try destruct s; try reflexivity;
    rewrite Z.compare_refl; change (Pos.compare_cont Eq m m) with (Pos.compare m m);
    rewrite Pos.compare_refl; reflexivity.
Qed.

Lemma SFltb_transitive (a b c : spec_float) :
  SFltb a b = true -> SFltb b c = true -> SFltb a c = true.
Proof.
  unfold SFltb, SFcompare.
  destruct a as [ sa | sa | | sa ma ea ];
    destruct b as [ sb | sb | | sb mb eb ];
    destruct c as [ sc | sc | | sc mc ec ];
    try destruct sa; try destruct sb; try destruct sc;
    try reflexivity; try discriminate;
    change (Pos.compare_cont Eq ma mb) with (Pos.compare ma mb);
    change (Pos.compare_cont Eq mb mc) with (Pos.compare mb mc);
    change (Pos.compare_cont Eq ma mc) with (Pos.compare ma mc);
    destruct (Z.compare_spec ea eb); destruct (Z.compare_spec eb ec);
    destruct (Z.compare_spec ea ec); try discriminate; try reflexivity; try lia;
    destruct (Pos.compare_spec ma mb); destruct (Pos.compare_spec mb mc);
    destruct (Pos.compare_spec ma mc); simpl; try discriminate; try reflexivity; lia.
Qed.

Lemma float_ltb_irreflexive (a : float) : PrimFloat.ltb a a = false.
Proof. rewrite FloatAxioms.ltb_spec. apply SFltb_irreflexive. Qed.

Lemma float_ltb_transitive (a b c : float) :
  PrimFloat.ltb a b = true -> PrimFloat.ltb b c = true -> PrimFloat.ltb a c = true.
Proof. rewrite !FloatAxioms.ltb_spec. apply SFltb_transitive. Qed.

(** ** The Runge-Kutta scheme as the code computes it *)

(** C2, as the code has it.  A call of [_runge_kutta_4] whose step sizes
    exist and whose vectors have the length of the sludge state evaluates
    the rate function exactly four times, each time with the reactor's
    volume, total inflow and inflow components: at the mixed-outlet vector
    [outlet], at [outlet + (h/2) k1], at [outlet + (h/2) k2] and at
    [outlet + h k3].  Component [i] of the new sludge state is
    [state[i] + (k1[i] + 2 k2[i] + 2 k3[i] + k4[i]) / 6 * h], in this
    order of operations, on the sludge state and not on the outlet.  The
    step [h] is the soluble fraction times a soluble candidate bound
    [state[i] / |k1[i]|] that no soluble candidate bound is below.  This
    holds for every number type whose [<] is irreflexive and transitive,
    the rationals and binary64 among them. *)
Theorem runge_kutta_4_scheme_as_coded
        {R C : Type} `{PyNum R} `{KineticsModel R C}
        (w : world R C) (first_index_part : Z) (f_s f_p : R) (st : steps) :
  let r := self w in
  let state := _comps (_sludge r) in
  let outlet := _mo_comps r in
  let h := _step_sol st in
  let half := num_div h (num_of_Z 2) in
  let k1 := rate_of r outlet in
  let k2 := rate_of r (zip_with (fun b k => num_add b (num_mul half k)) outlet k1) in
  let k3 := rate_of r (zip_with (fun b k => num_add b (num_mul half k)) outlet k2) in
  let k4 := rate_of r (zip_with (fun b k => num_add b (num_mul h k)) outlet k3) in
  (forall a : R, num_lt a a = false) ->
  (forall a b c : R, num_lt a b = true -> num_lt b c = true -> num_lt a c = true) ->
  rk4_steps k1 state first_index_part f_s f_p = Ok st ->
  length outlet = length state ->
  length k1 = length state -> length k2 = length state ->
  length k3 = length state -> length k4 = length state ->
  exists w',
    _runge_kutta_4 first_index_part f_s f_p w = (Ok tt, w')
    /\ dCdt_log w'
       = dCdt_log w ++
         [ {| call_vol := _active_vol r; call_flow := _total_inflow r;
              call_in_comps := _in_comps r; call_comps := outlet |};
           {| call_vol := _active_vol r; call_flow := _total_inflow r;
              call_in_comps := _in_comps r;
              call_comps := zip_with (fun b k => num_add b (num_mul half k)) outlet k1 |};
           {| call_vol := _active_vol r; call_flow := _total_inflow r;
              call_in_comps := _in_comps r;
              call_comps := zip_with (fun b k => num_add b (num_mul half k)) outlet k2 |};
           {| call_vol := _active_vol r; call_flow := _total_inflow r;
              call_in_comps := _in_comps r;
              call_comps := zip_with (fun b k => num_add b (num_mul h k)) outlet k3 |} ]
    /\ length (_comps (_sludge (self w'))) = length state
    /\ (forall (i : nat) (z : R),
           i < length state ->
           nth i (_comps (_sludge (self w'))) z
           = num_add (nth i state z)
               (num_mul
                  (num_div
                     (num_add
                        (num_add
                           (num_add (nth i k1 z) (num_mul (num_of_Z 2) (nth i k2 z)))
                           (num_mul (num_of_Z 2) (nth i k3 z)))
                        (nth i k4 z))
                     (num_of_Z 6))
                  h))
    /\ exists m,
        In m (soluble_bounds k1 state first_index_part)
        /\ (forall y, In y (soluble_bounds k1 state first_index_part) ->
                      num_lt y m = false)
        /\ h = num_mul f_s m.
Proof.
  intros r state outlet h half k1 k2 k3 k4 Hirr Htrans Hst Hmo H1 H2 H3 H4.
  pose proof (@_runge_kutta_4_run R C _ _ w first_index_part f_s f_p st
                Hst Hmo H1 H2 H3 H4) as Hrun.
  eexists. split; [ exact Hrun | ].
  split; [ reflexivity | ].
  cbn [self publish_comps with_mo_comps with_so_comps with_comps with_sludge
            _sludge _comps].
  split; [ now apply length_rk4_next | ].
  split; [ intros i z Hi; now apply nth_rk4_next | ].
  destruct (rk4_steps_inv _ _ _ _ _ Hst) as (us & up & Hus & _ & Hms & _ & Hh & _).
  apply uppers_sol_inv in Hus. subst us.
  destruct (@py_min_least R _ Hirr Htrans _ _ Hms) as [ Hin Hall ].
  exists (_max_step_sol st). repeat split; assumption.
Qed.

Lemma offset_outlet_rk4_steps :
  rk4_steps (linear_decay_rate [qc 1 1; qc 1 1] [qc 2 1; qc 2 1]) [qc 1 1; qc 1 1]
            1 (qc 1 10) (qc 2 1)
  = Ok offset_outlet_steps.
Proof.
  vm_compute. apply f_equal. apply f_equal4; qc_eq.
Qed.

Lemma rounding_rk4_steps_float :
  rk4_steps rounding_rate_float rounding_state_float 1 float_fifth 2%float
  = Ok rounding_steps_float.
Proof. vm_compute. reflexivity. Qed.

Lemma runge_kutta_4_scheme_as_coded_witness :
  (exists w',
      offset_outlet_runge_kutta_4 = (Ok tt, w')
      /\ length (dCdt_log w') = 4
      /\ length (_comps (_sludge (self w'))) = 2
      /\ exists m,
          In m (soluble_bounds [qc (-2) 1; qc (-2) 1] [qc 1 1; qc 1 1] 1)
          /\ qc 1 20 = (qc 1 10 * m)%Qc)
  /\ (exists w',
         rounding_runge_kutta_4_float = (Ok tt, w')
         /\ length (dCdt_log w') = 4
         /\ nth 1 (_comps (_sludge (self w'))) 0%float = 0x1.9999999999998p-2%float
         /\ exists m,
             In m [1%float] /\ PrimFloat.mul float_fifth 1%float = PrimFloat.mul float_fifth m).
Proof.
  split.
  - destruct (@runge_kutta_4_scheme_as_coded
                Qc (list Qc) PyNum_Qc linear_decay_model offset_outlet_world
                1 (qc 1 10) (qc 2 1) offset_outlet_steps
                Qc_ltb_irreflexive Qc_ltb_transitive offset_outlet_rk4_steps
                eq_refl eq_refl eq_refl eq_refl eq_refl)
      as (w' & Hrun & Hlog & Hlen & _ & m & Hin & _ & Hh).
    exists w'. split; [ exact Hrun | ]. split; [ rewrite Hlog; reflexivity | ].
    split; [ exact Hlen | ].
    exists m. split; [ | exact Hh ].
    vm_compute in Hin. vm_compute. exact Hin.
  - destruct (@runge_kutta_4_scheme_as_coded
                float unit PyNum_float (constant_rate_model rounding_rate_float)
                (world_of (reactor_with tt rounding_state_float))
                1 float_fifth 2%float rounding_steps_float
                float_ltb_irreflexive float_ltb_transitive rounding_rk4_steps_float
                eq_refl eq_refl eq_refl eq_refl eq_refl)
      as (w' & Hrun & Hlog & _ & Hnext & m & Hin & _ & Hh).
    exists w'. split; [ exact Hrun | ]. split; [ rewrite Hlog; reflexivity | ].
    split; [ rewrite (Hnext 1 0%float) by (simpl; lia); vm_compute; reflexivity | ].
    exists m. split; [ | exact Hh ].
    vm_compute in Hin. exact Hin.
Defined.

(** C2, as the specification words it, fails on two counts.

    In exact arithmetic, on a reactor whose mixed-outlet vector [2, 2] is
    not its sludge state [1, 1] (linear decay with constants [1, 1],
    boundary 1, soluble fraction 0.1): the four rate evaluations are at
    the outlet and the stage points built from it, the first at [2, 2] and
    not at the state [1, 1]; the step 1/20 comes from the sludge state
    over the outlet's rate; and the sludge state ends at
    [1732721/1920000] in both components, which is not what the
    specified scheme makes of either vector, at the step 1/10 that vector's
    own bound gives or at the step 1/20 the code took.

    In binary64, on a reactor whose outlet is its state [1, 1], with
    constant rates [-1, -3], boundary 1 and soluble fraction 0.2: the step
    is 0.2, the code leaves [1 + (-18)/6 * 0.2] at 0.39999999999999991 in
    the second component, and the specified [1 + (0.2/6) * (-18)] is
    0.40000000000000002. *)
Lemma runge_kutta_4_is_not_the_specified_scheme :
  _comps (_sludge (self offset_outlet_world)) = [qc 1 1; qc 1 1]
  /\ _mo_comps (self offset_outlet_world) = [qc 2 1; qc 2 1]
  /\ fst offset_outlet_runge_kutta_4 = Ok tt
  /\ map (@call_comps Qc) (dCdt_log (snd offset_outlet_runge_kutta_4))
     = [ [qc 2 1; qc 2 1]; [qc 39 20; qc 39 20]; [qc 1561 800; qc 1561 800];
         [qc 30439 16000; qc 30439 16000] ]
  /\ _comps (_sludge (self (snd offset_outlet_runge_kutta_4)))
     = [qc 1732721 1920000; qc 1732721 1920000]
  /\ soluble_bounds (linear_decay_rate [qc 1 1; qc 1 1] [qc 1 1; qc 1 1])
                    [qc 1 1; qc 1 1] 1 = [qc 1 1]
  /\ soluble_bounds (linear_decay_rate [qc 1 1; qc 1 1] [qc 2 1; qc 2 1])
                    [qc 2 1; qc 2 1] 1 = [qc 1 1]
  /\ rk4_as_specified (linear_decay_rate [qc 1 1; qc 1 1]) [qc 1 1; qc 1 1] (qc 1 10)
     = [qc 72387 80000; qc 72387 80000]
  /\ rk4_as_specified (linear_decay_rate [qc 1 1; qc 1 1]) [qc 2 1; qc 2 1] (qc 1 10)
     = [qc 72387 40000; qc 72387 40000]
  /\ rk4_as_specified (linear_decay_rate [qc 1 1; qc 1 1]) [qc 1 1; qc 1 1] (qc 1 20)
     = [qc 3652721 3840000; qc 3652721 3840000]
  /\ rk4_as_specified (linear_decay_rate [qc 1 1; qc 1 1]) [qc 2 1; qc 2 1] (qc 1 20)
     = [qc 3652721 1920000; qc 3652721 1920000]
  /\ ~ In (qc 1732721 1920000)
          [qc 72387 80000; qc 72387 40000; qc 3652721 3840000; qc 3652721 1920000]
  /\ _mo_comps (self (world_of (reactor_with (R := float) tt rounding_state_float)))
     = _comps (_sludge (self (world_of (reactor_with (R := float) tt
                                                     rounding_state_float))))
  /\ fst rounding_runge_kutta_4_float = Ok tt
  /\ soluble_bounds rounding_rate_float rounding_state_float 1 = [1%float]
  /\ PrimFloat.mul float_fifth 1%float = float_fifth
  /\ _comps (_sludge (self (snd rounding_runge_kutta_4_float)))
     = [0x1.999999999999ap-1%float; 0x1.9999999999998p-2%float]
  /\ rk4_as_specified (fun _ => rounding_rate_float) rounding_state_float float_fifth
     = [0x1.999999999999ap-1%float; 0x1.999999999999ap-2%float]
  /\ PrimFloat.eqb 0x1.9999999999998p-2%float 0x1.999999999999ap-2%float = false.
Proof.
  split; [ reflexivity | ].
  split; [ reflexivity | ].
  split; [ vm_compute; reflexivity | ].
  split; [ vm_compute; repeat (apply f_equal2; [ qc_list_eq | ]); reflexivity | ].
  split; [ qc_list_eq | ].
  split; [ qc_list_eq | ].
  split; [ qc_list_eq | ].
  split; [ qc_list_eq | ].
  split; [ qc_list_eq | ].
  split; [ qc_list_eq | ].
  split; [ qc_list_eq | ].
  split.
  { intros Hin. repeat (destruct Hin as [ E | Hin ];
                        [ apply (f_equal this) in E; vm_compute in E; discriminate E | ]).
    exact Hin. }
  repeat split; vm_compute; reflexivity.
Qed.

(** ** The step of [_euler], whatever the number type *)

(** X10.  A call of [_euler] that returns has advanced each of the first
    [len(_mo_comps)] sludge components, soluble and particulate alike, by
    [rate[i] * (f_s * m)], where [m] is a soluble candidate bound
    [comps[i] / |rate[i]|] that no soluble candidate bound is below.  This
    holds for every number type whose [<] is irreflexive and transitive,
    the rationals and binary64 among them. *)
Theorem euler_step_is_fraction_of_least_soluble_bound
        {R C : Type} `{PyNum R} `{KineticsModel R C}
        (w w' : world R C) (first_index_part : Z) (f_s f_p : R) :
  let r := self w in
  let comps := _comps (_sludge r) in
  let d := rate_of r (_mo_comps r) in
  (forall a : R, num_lt a a = false) ->
  (forall a b c : R, num_lt a b = true -> num_lt b c = true -> num_lt a c = true) ->
  _euler first_index_part f_s f_p w = (Ok tt, w') ->
  exists m,
    In m (soluble_bounds d comps first_index_part)
    /\ (forall y, In y (soluble_bounds d comps first_index_part) -> num_lt y m = false)
    /\ forall (i : nat) (z : R),
         nth i (_comps (_sludge (self w'))) z
         = if i <? length (_mo_comps r)
           then num_add (nth i comps z) (num_mul (nth i d z) (num_mul f_s m))
           else nth i comps z.
Proof.
  intros r comps d Hirr Htrans E.
  rewrite _euler_outcome in E. fold r comps d in E.
  destruct (euler_steps d comps first_index_part f_s f_p) as [ st | e ] eqn:Hst;
    [ | discriminate ].
  cbv zeta in E.
  destruct ((length (_mo_comps r) <=? length comps)
            && (length (_mo_comps r) <=? length d))%bool eqn:Hm;
    [ | discriminate ].
  apply andb_true_iff in Hm. destruct Hm as [ Hc Hd ].
  apply Nat.leb_le in Hc. apply Nat.leb_le in Hd.
  injection E as <-.
  destruct (euler_steps_inv _ _ _ _ _ Hst) as (us & up & Hus & _ & Hms & _ & Hh & _).
  apply uppers_sol_inv in Hus. subst us.
  destruct (@py_min_least R _ Hirr Htrans _ _ Hms) as [ Hin Hall ].
  exists (_max_step_sol st). split; [ exact Hin | ]. split; [ exact Hall | ].
  intros i z.
  cbn [self after_call publish_comps with_mo_comps with_so_comps with_comps
            with_sludge _sludge _comps].
  rewrite nth_euler_advance. fold comps d. rewrite Hh.
  destruct (Nat.ltb_spec i (length (_mo_comps r))) as [ Hi | Hi ]; [ | reflexivity ].
  destruct (Nat.ltb_spec i (length comps)) as [ _ | Hi' ]; [ | lia ].
  destruct (Nat.ltb_spec i (length d)) as [ _ | Hi' ]; [ | lia ].
  reflexivity.
Qed.

Lemma euler_step_is_fraction_of_least_soluble_bound_witness :
  (exists m,
      In m (soluble_bounds scenario_rate scenario_state 1)
      /\ nth 1 (_comps (_sludge (self (snd (scenario_euler (qc 2 1)))))) 0%Qc
         = (nth 1 scenario_state 0 + nth 1 scenario_rate 0 * (qc 1 10 * m))%Qc)
  /\ (exists m,
         In m [5%float]
         /\ nth 1 (_comps (_sludge (self (snd (scenario_euler_float 2%float))))) 0%float
            = PrimFloat.add 5%float
                (PrimFloat.mul (-1)%float (PrimFloat.mul float_tenth m))).
Proof.
  split.
  - destruct (@euler_step_is_fraction_of_least_soluble_bound
                Qc unit PyNum_Qc (constant_rate_model scenario_rate)
                scenario_world (snd (scenario_euler (qc 2 1))) 1 (qc 1 10) (qc 2 1)
                Qc_ltb_irreflexive Qc_ltb_transitive)
      as (m & Hin & _ & Hnext).
    + vm_compute. reflexivity.
    + exists m. split; [ exact Hin | ]. exact (Hnext 1 0%Qc).
  - destruct (@euler_step_is_fraction_of_least_soluble_bound
                float unit PyNum_float (constant_rate_model scenario_rate_float)
                scenario_world_float (snd (scenario_euler_float 2%float))
                1 float_tenth 2%float
                float_ltb_irreflexive float_ltb_transitive)
      as (m & Hin & _ & Hnext).
    + vm_compute. reflexivity.
    + exists m. split; [ vm_compute in Hin; exact Hin | ]. exact (Hnext 1 0%float).
Defined.
